(** * fileshare: the session core of the single-peer HTTP file server

    A shallow embedding of [main.go]: the transfer log, the admission gate,
    the transfer status record and the three request handlers that move
    bytes or cancel a session ([handleDownload], [handleUpload],
    [handleCancel]).  The handlers are written in a small state monad over
    the server's fields; everything the operating system or the peer
    decides (results of [Read], [Write], [os.Stat], [os.Create], the
    directory walk, the wall clock) is an explicit script handed to the
    handler.

    What is not modelled: the locks and the interleaving of handlers (a
    handler runs from its first line to its last), the event-stream handler
    and the read-only [/api/info] and [/api/log] handlers, the console
    output, and the rounding of the [Progress] percentage to [float64]. *)

From Stdlib Require Import ZArith QArith Lia Ascii String Sorted.
From stdpp Require Import base strings list gmap pretty.

Local Open Scope Z_scope.

(** ** The pieces of Go's [strings] package the server uses *)

Module GoStrings.

(** [strings.LastIndex(s, sep)]: byte index of the last occurrence of
    [sep] in [s], or -1. *)
Fixpoint LastIndex (s sep : string) : Z :=
  match s with
  | EmptyString => if String.eqb sep "" then 0 else -1
  | String _ rest =>
      let r := LastIndex rest sep in
      if 0 <=? r then 1 + r
      else if String.prefix sep s then 0 else -1
  end.

(** The slice expression [s[:idx]]. *)
Definition slice_to (s : string) (idx : Z) : string :=
  String.substring 0 (Z.to_nat idx) s.

Definition inCutset (cutset : string) (c : ascii) : bool :=
  existsb (Ascii.eqb c) (list_ascii_of_string cutset).

Fixpoint TrimLeft (s cutset : string) : string :=
  match s with
  | EmptyString => EmptyString
  | String a rest => if inCutset cutset a then TrimLeft rest cutset else s
  end.

Fixpoint TrimRight (s cutset : string) : string :=
  match s with
  | EmptyString => EmptyString
  | String a rest =>
      match TrimRight rest cutset with
      | EmptyString => if inCutset cutset a then EmptyString else String a EmptyString
      | kept => String a kept
      end
  end.

(** [strings.Trim(s, cutset)]: all leading and trailing bytes that occur
    in [cutset] are removed. *)
Definition Trim (s cutset : string) : string :=
  TrimRight (TrimLeft s cutset) cutset.

(** The double-quote character, for the JSON bodies. *)
Definition dq : string := String "034"%char EmptyString.

End GoStrings.
Import GoStrings.

(** ** int64 arithmetic and the clock *)

(** Two's-complement wrap-around of Go's [int64]. *)
Definition wrap64 (z : Z) : Z := (z + 2 ^ 63) mod 2 ^ 64 - 2 ^ 63.

Definition int64_add (a b : Z) : Z := wrap64 (a + b).

(** An instant of the wall clock, in seconds. *)
Definition Time := Z.

Definition pad2 (n : Z) : string :=
  if n <? 10 then "0" +:+ pretty n else pretty n.

(** [t.Format("15:04:05")]. *)
Definition Format150405 (t : Time) : string :=
  pad2 ((t / 3600) mod 24) +:+ ":" +:+ pad2 ((t / 60) mod 60)
    +:+ ":" +:+ pad2 (t mod 60).

(** ** Data model *)

Record TransferStatus := mkTransferStatus {
  Mode : string;
  Path : string;
  Size : Z;
  Transferred : Z;
  (** [float64] in the source; kept as the exact rational it is computed
      from (rounding to binary64 is not modelled). *)
  Progress : Q;
  Status : string;
  Error : string;
  ClientIP : string;
  StartTime : Time;
  LastUpdateTime : Time
}.

(** What [broadcastStatus] formats into the event payload. *)
Record Snapshot := mkSnapshot {
  snap_status : string;
  snap_progress : Q;
  snap_transferred : Z;
  snap_client_ip : string;
  snap_error : string
}.

(** The [FileServer] struct together with the parts of the outside world
    its handlers touch.  [sseClients] maps a channel (its identity is a
    number) to the messages buffered in it.  [statusHistory] is a ghost
    field: the contents of the status record after each critical section
    that wrote it, oldest first; no handler reads it. *)
Record World := mkWorld {
  (* FileServer *)
  mode : string;
  path : string;
  status : TransferStatus;
  sseClients : gmap nat (list Snapshot);
  activeClient : string;
  transferLog : list string;
  (* outside world *)
  wallClock : nat -> Time;       (* the k-th reading of time.Now() *)
  ticks : nat;                   (* readings taken so far *)
  disk : gmap string (list Byte.byte);  (* regular files by path *)
  netIn : Z;                     (* request-body bytes read from peers *)
  (* ghost *)
  statusHistory : list TransferStatus
}.

(** One critical section on the status record. *)
Definition set_status (f : TransferStatus -> TransferStatus) (w : World) : World :=
  mkWorld (mode w) (path w) (f (status w)) (sseClients w) (activeClient w)
          (transferLog w) (wallClock w) (ticks w) (disk w) (netIn w)
          (statusHistory w ++ [f (status w)]).
Definition set_sseClients (c : gmap nat (list Snapshot)) (w : World) : World :=
  mkWorld (mode w) (path w) (status w) c (activeClient w)
          (transferLog w) (wallClock w) (ticks w) (disk w) (netIn w) (statusHistory w).
Definition set_activeClient (c : string) (w : World) : World :=
  mkWorld (mode w) (path w) (status w) (sseClients w) c
          (transferLog w) (wallClock w) (ticks w) (disk w) (netIn w) (statusHistory w).
Definition set_transferLog (l : list string) (w : World) : World :=
  mkWorld (mode w) (path w) (status w) (sseClients w) (activeClient w)
          l (wallClock w) (ticks w) (disk w) (netIn w) (statusHistory w).
Definition set_ticks (n : nat) (w : World) : World :=
  mkWorld (mode w) (path w) (status w) (sseClients w) (activeClient w)
          (transferLog w) (wallClock w) n (disk w) (netIn w) (statusHistory w).
Definition set_disk (d : gmap string (list Byte.byte)) (w : World) : World :=
  mkWorld (mode w) (path w) (status w) (sseClients w) (activeClient w)
          (transferLog w) (wallClock w) (ticks w) d (netIn w) (statusHistory w).
Definition set_netIn (n : Z) (w : World) : World :=
  mkWorld (mode w) (path w) (status w) (sseClients w) (activeClient w)
          (transferLog w) (wallClock w) (ticks w) (disk w) n (statusHistory w).

Definition upd_Size (v : Z) (s : TransferStatus) : TransferStatus :=
  mkTransferStatus (Mode s) (Path s) v (Transferred s) (Progress s) (Status s)
                   (Error s) (ClientIP s) (StartTime s) (LastUpdateTime s).
Definition upd_Transferred (v : Z) (s : TransferStatus) : TransferStatus :=
  mkTransferStatus (Mode s) (Path s) (Size s) v (Progress s) (Status s)
                   (Error s) (ClientIP s) (StartTime s) (LastUpdateTime s).
Definition upd_Progress (v : Q) (s : TransferStatus) : TransferStatus :=
  mkTransferStatus (Mode s) (Path s) (Size s) (Transferred s) v (Status s)
                   (Error s) (ClientIP s) (StartTime s) (LastUpdateTime s).
Definition upd_Status (v : string) (s : TransferStatus) : TransferStatus :=
  mkTransferStatus (Mode s) (Path s) (Size s) (Transferred s) (Progress s) v
                   (Error s) (ClientIP s) (StartTime s) (LastUpdateTime s).
Definition upd_Error (v : string) (s : TransferStatus) : TransferStatus :=
  mkTransferStatus (Mode s) (Path s) (Size s) (Transferred s) (Progress s) (Status s)
                   v (ClientIP s) (StartTime s) (LastUpdateTime s).
Definition upd_ClientIP (v : string) (s : TransferStatus) : TransferStatus :=
  mkTransferStatus (Mode s) (Path s) (Size s) (Transferred s) (Progress s) (Status s)
                   (Error s) v (StartTime s) (LastUpdateTime s).
Definition upd_LastUpdateTime (v : Time) (s : TransferStatus) : TransferStatus :=
  mkTransferStatus (Mode s) (Path s) (Size s) (Transferred s) (Progress s) (Status s)
                   (Error s) (ClientIP s) (StartTime s) v.

(** ** The handler monad: state passing over [World] *)

Definition M (A : Type) : Type := World -> A * World.

#[export] Instance M_ret : MRet M := fun A a w => (a, w).
#[export] Instance M_bind : MBind M :=
  fun A B f m w => let '(a, w') := m w in f a w'.

Definition get {A} (proj : World -> A) : M A := fun w => (proj w, w).
Definition modify (f : World -> World) : M unit := fun w => (tt, f w).

(** [time.Now()] *)
Definition timeNow : M Time :=
  fun w => (wallClock w (ticks w), set_ticks (S (ticks w)) w).

(** ** Event broadcaster, transfer log, admission gate *)

(** The capacity of a subscriber's channel. *)
Definition chanCap : nat := 10.

(** The non-blocking send of [broadcastStatus]: dropped when the buffer is
    full. *)
Definition trySend (data : Snapshot) (buf : list Snapshot) : list Snapshot :=
  if (length buf <? chanCap)%nat then buf ++ [data] else buf.

Definition broadcastStatus : M unit :=
  st ← get status;
  active ← get activeClient;
  let data := mkSnapshot (Status st) (Progress st) (Transferred st) active (Error st) in
  modify (fun w => set_sseClients (trySend data <$> sseClients w) w).

Definition logCap : nat := 100.

(** The slice manipulation of [addLog], on the log alone. *)
Definition appendLog (log : list string) (logEntry : string) : list string :=
  let log' := log ++ [logEntry] in
  if (logCap <? length log')%nat then drop (length log' - logCap)%nat log' else log'.

Definition logEntryOf (t : Time) (message : string) : string :=
  "[" +:+ Format150405 t +:+ "] " +:+ message.

Definition addLog (message : string) : M unit :=
  t ← timeNow;
  modify (fun w => set_transferLog (appendLog (transferLog w) (logEntryOf t message)) w);;
  broadcastStatus.

Record Request := mkRequest {
  Method : string;
  RemoteAddr : string;
  Range : string;                 (* r.Header.Get("Range") *)
  Body : list Byte.byte           (* the raw request body *)
}.

Definition getClientIP (r : Request) : string :=
  let ip := RemoteAddr r in
  let idx := LastIndex ip ":" in
  let ip := if decide (idx ≠ -1) then slice_to ip idx else ip in
  Trim ip "[]".

Definition acquireClient (clientIP : string) : M bool :=
  active ← get activeClient;
  if decide (active ≠ "" ∧ active ≠ clientIP) then mret false
  else
    (if decide (active = "") then modify (set_activeClient clientIP) else mret tt);;
    mret true.

Definition releaseClient (clientIP : string) : M unit :=
  active ← get activeClient;
  shouldLog ← (if decide (active = clientIP)
               then modify (set_activeClient "");; mret true
               else mret false);
  if shouldLog : bool then addLog ("Client " +:+ clientIP +:+ " disconnected")
  else mret tt.

(** ** Paths, sizes, construction *)

Definition slice_from (s : string) (idx : Z) : string :=
  String.substring (Z.to_nat idx) (String.length s - Z.to_nat idx)%nat s.

(** [filepath.Base] for slash-separated paths. *)
Definition Base (p : string) : string :=
  if decide (p = "") then "."
  else
    let p := TrimRight p "/" in
    let p := slice_from p (LastIndex p "/" + 1) in
    if decide (p = "") then "/" else p.

(** [strings.Split(p, "/")]. *)
Fixpoint splitSlash (p : string) : list string :=
  match p with
  | EmptyString => [EmptyString]
  | String c rest =>
      if Ascii.eqb c "/" then EmptyString :: splitSlash rest
      else
        match splitSlash rest with
        | [] => [String c EmptyString]
        | h :: t => String c h :: t
        end
  end.

(** One element of the path met by [filepath.Clean]; [kept] holds the
    elements of the result so far, the last one first.  Empty and [.]
    elements are dropped; [..] removes the element before it, is dropped
    at the root, and stays where a relative path has nothing left to
    remove. *)
Definition cleanStep (rooted : bool) (kept : list string) (elem : string)
    : list string :=
  if decide (elem = "" ∨ elem = ".") then kept
  else if decide (elem = "..") then
    match kept with
    | top :: below => if decide (top = "..") then elem :: kept else below
    | [] => if rooted then [] else [elem]
    end
  else elem :: kept.

(** [strings.Join(elems, "/")]. *)
Definition joinSlash (elems : list string) : string :=
  match elems with
  | [] => ""
  | e :: es => foldl (fun acc x => acc +:+ "/" +:+ x) e es
  end.

(** [filepath.Clean] for slash-separated paths. *)
Definition Clean (p : string) : string :=
  let rooted := String.prefix "/" p in
  let kept := rev (foldl (cleanStep rooted) [] (splitSlash p)) in
  let out := (if rooted then "/" else "") +:+ joinSlash kept in
  if decide (out = "") then "." else out.

(** [filepath.Join(dir, name)]: empty elements are ignored and the result
    is cleaned. *)
Definition Join (dir name : string) : string :=
  if decide (dir ≠ "") then Clean (dir +:+ "/" +:+ name)
  else if decide (name ≠ "") then Clean name
  else "".

(** The conversion [float64(n)] of an [int64]: the nearest number with a
    53-bit significand, ties to even.  The result is again an integer. *)
Definition float64 (n : Z) : Z :=
  let a := Z.abs n in
  let shift := Z.log2 a + 1 - 53 in
  if shift <=? 0 then n
  else
    let q := a / 2 ^ shift in
    let r := a mod 2 ^ shift in
    let half := 2 ^ (shift - 1) in
    let q := if (half <? r) || ((half =? r) && Z.odd q) then q + 1 else q in
    Z.sgn n * (q * 2 ^ shift).

(** [fmt.Sprintf("%.2f", float64(size)/float64(unit))] for a power-of-two
    [unit]: dividing the converted size by [unit] is exact in binary64,
    and the formatting rounds the quotient to hundredths, ties to even. *)
Definition fixed2 (size unit : Z) : string :=
  let scaled := float64 size * 100 in
  let q := scaled / unit in
  let r := scaled mod unit in
  let h := if (unit <? 2 * r) || ((unit =? 2 * r) && Z.odd q) then q + 1 else q in
  pretty (h / 100) +:+ "." +:+ pad2 (h mod 100).

Definition KB : Z := 1024.
Definition MB : Z := 1024 * KB.
Definition GB : Z := 1024 * MB.

Definition formatSize (size : Z) : string :=
  if GB <=? size then fixed2 size GB +:+ " GB"
  else if MB <=? size then fixed2 size MB +:+ " MB"
  else if KB <=? size then fixed2 size KB +:+ " KB"
  else pretty size +:+ " B".

Definition NewFileServer (mode path : string) (clock : nat -> Time)
    (files : gmap string (list Byte.byte)) : World :=
  mkWorld mode path
          (mkTransferStatus mode (Base path) 0 0 0%Q "waiting" "" "" (clock 0%nat) 0)
          ∅ "" [] clock 1%nat files 0 [].

(** ** What a handler answers, and what the outside hands it *)

(** The error of an [io.Copy] into the archive, by the side it comes
    from. *)
Inductive CopyErr :=
  | CopyReadErr (msg : string)    (* f.Read failed; the archive writer is intact *)
  | CopyWriteErr (msg : string).  (* a write through to the peer failed *)

(** Calls on the [zip.Writer] of a directory download, with the error
    each one returned. *)
Inductive ZipOp :=
  | ZipCreateHeader (name : string) (err : option string)
  | ZipCopy (n : Z) (err : option CopyErr)
  | ZipClose.

Record Response := mkResponse {
  code : Z;                       (* 0: the connection was dropped by a panic *)
  contentType : string;
  body : string;                  (* text written with Fprintf / http.Error *)
  stream : list Byte.byte;        (* raw bytes written by the chunk loop *)
  archive : list ZipOp
}.

Definition nl : string := String "010"%char EmptyString.

(** [http.Error(w, msg, code)] *)
Definition httpError (msg : string) (c : Z) : Response :=
  mkResponse c "text/plain; charset=utf-8" (msg +:+ nl) [] [].

Definition aborted : Response := mkResponse 0 "" "" [] [].

(** An [error] value as the loops look at it: [io.EOF] or anything else. *)
Inductive ioerr := EOF | IOErr (msg : string).

(** One call of [Read(buf)]: the bytes placed in [buf[:n]] and the error. *)
Record ReadResult := mkRead { rr_data : list Byte.byte; rr_err : option ioerr }.

(** One call of [Write]: [None] when all bytes were accepted, otherwise the
    number of bytes accepted and the error message. *)
Definition WriteOutcome := option (nat * string).

Record FileInfo := mkFileInfo { IsDir : bool; fi_Size : Z }.

(** One visit of [filepath.Walk]'s callback.  [we_headerErr], [we_copied]
    and [we_copyErr] say what the peer and the file do to an archive
    writer that is still intact; once a write has failed the writer's
    buffer keeps the error and the visit's outcome no longer depends on
    them (see [walkDir]). *)
Record WalkEntry := mkWalkEntry {
  we_relPath : string;            (* filepath.Rel(basePath, file) *)
  we_isDir : bool;
  we_walkErr : option string;     (* the err argument of the callback *)
  we_headerErr : option string;   (* a failed write inside CreateHeader *)
  we_openErr : option string;     (* os.Open(file) *)
  we_hasData : bool;              (* the file's first Read yields bytes *)
  we_copied : Z;                  (* n of io.Copy(writer, f) *)
  we_copyErr : option CopyErr     (* its error *)
}.

Record DownloadEnv := mkDownloadEnv {
  statResult : option FileInfo;   (* os.Stat(fs.path); None: error *)
  dirSize : Z;                    (* calculateDirSize(fs.path) *)
  walk : list WalkEntry;
  openErr : option string;        (* os.Open(fs.path) *)
  reads : list ReadResult;        (* successive f.Read(buf) *)
  netWrites : list WriteOutcome;  (* successive w.Write *)
  rangeReply : Z * list Byte.byte (* what http.ServeContent answers *)
}.

Record FileHeader := mkFileHeader { Filename : string; fh_Size : Z }.

(** What [net/http] makes of the request body, by its Content-Type. *)
Inductive RequestBody :=
  (** multipart/form-data, read and parsed to its end; [file] is the part
      named "file", with the script of its successive [file.Read(buf)]. *)
  | MultipartBody (file : option (FileHeader * list ReadResult))
  (** multipart/form-data whose parsing fails after [consumed] bytes. *)
  | BrokenMultipartBody (consumed : nat)
  (** application/x-www-form-urlencoded: read as a form, up to its limit,
      and then refused with [ErrNotMultipart]. *)
  | UrlEncodedBody
  (** any other Content-Type: [ErrNotMultipart], nothing is read. *)
  | OtherBody.

Record UploadEnv := mkUploadEnv {
  bodyForm : RequestBody;
  createErr : option string;      (* os.Create(savePath) *)
  diskWrites : list WriteOutcome  (* successive dst.Write *)
}.

(** [r.FormFile("file")]: only a parsed multipart body has file parts. *)
Definition formFile (env : UploadEnv) : option (FileHeader * list ReadResult) :=
  match bodyForm env with
  | MultipartBody file => file
  | _ => None
  end.

(** ** Status mutations shared by the loops *)

Definition percent (transferred size : Z) : Q :=
  (inject_Z transferred / inject_Z size * 100)%Q.

(** The per-chunk critical section followed by the broadcast. *)
Definition reportProgress (transferred : Z) : M unit :=
  t ← timeNow;
  modify (set_status (fun s =>
    let s := upd_Transferred transferred s in
    let s := if 0 <? Size s then upd_Progress (percent transferred (Size s)) s else s in
    upd_LastUpdateTime t s));;
  broadcastStatus.

Definition reportError (msg : string) : M unit :=
  modify (set_status (fun s => upd_Error msg (upd_Status "error" s)));;
  broadcastStatus.

Definition reportCompleted : M unit :=
  modify (set_status (fun s => upd_Progress 100%Q (upd_Status "completed" s)));;
  broadcastStatus.

(** What one [Write] does with [data] under the next scripted outcome. *)
Definition doWrite (data : list Byte.byte) (ws : list WriteOutcome)
    : option string * list Byte.byte * list WriteOutcome :=
  match ws with
  | [] => (None, data, [])
  | None :: ws' => (None, data, ws')
  | Some (k, msg) :: ws' => (Some msg, take k data, ws')
  end.

(** ** Download *)

(** The chunk loop of a plain file download (the [for] at the end of
    [handleDownload]).  The flag of the result is [false] when the loop
    left the handler through one of its [return]s.  An exhausted script
    reads as [0, io.EOF]. *)
Fixpoint downloadLoop (rs : list ReadResult) (ws : list WriteOutcome)
    (transferred : Z) (out : list Byte.byte) : M (bool * list Byte.byte) :=
  match rs with
  | [] => mret (true, out)
  | r :: rs' =>
      let afterChunk transferred ws out : M (bool * list Byte.byte) :=
        match rr_err r with
        | Some EOF => mret (true, out)
        | Some (IOErr msg) => reportError msg;; mret (false, out)
        | None => downloadLoop rs' ws transferred out
        end in
      if (0 <? length (rr_data r))%nat then
        let '(werr, sent, ws') := doWrite (rr_data r) ws in
        match werr with
        | Some msg => reportError msg;; mret (false, out ++ sent)
        | None =>
            let transferred := int64_add transferred (Z.of_nat (length (rr_data r))) in
            reportProgress transferred;;
            afterChunk transferred ws' (out ++ sent)
        end
      else afterChunk transferred ws out
  end.

(** How [filepath.Walk] is left: it returns (at the end of the tree or
    at the first visit whose callback returns an error), or the callback
    panics. *)
Inductive WalkEnd := WalkReturned | WalkPanicked.

(** [zipWriter.CreateHeader(header)].  [zipErr] is the error kept by the
    buffered writer under the archive: after one failed write every later
    write fails with it, and [CreateHeader] then returns no writer. *)
Definition createHeader (zipErr : option string) (e : WalkEntry) : option string :=
  match zipErr with
  | Some msg => Some msg
  | None => we_headerErr e
  end.

(** The error the archive keeps after [io.Copy(writer, f)]. *)
Definition copyLeaves (err : option CopyErr) : option string :=
  match err with
  | Some (CopyWriteErr msg) => Some msg
  | _ => None
  end.

(** The callback of [filepath.Walk] run over the visits.  The error of
    [CreateHeader] is dropped, so the [io.Copy] after a failed one is
    handed a nil writer: it returns 0 for a file without data and panics
    at the first [Write] otherwise.  The result is how the walk was left
    and the calls made on the archive. *)
Fixpoint walkDir (entries : list WalkEntry) (zipErr : option string)
    (transferred : Z) (ops : list ZipOp) : M (WalkEnd * list ZipOp) :=
  match entries with
  | [] => mret (WalkReturned, ops)
  | e :: rest =>
      match we_walkErr e with
      | Some _ => mret (WalkReturned, ops)
      | None =>
          if decide (we_relPath e = ".") then walkDir rest zipErr transferred ops
          else
            let name := if we_isDir e then we_relPath e +:+ "/" else we_relPath e in
            let headerErr := createHeader zipErr e in
            let ops := ops ++ [ZipCreateHeader name headerErr] in
            if we_isDir e then walkDir rest headerErr transferred ops
            else
              match we_openErr e with
              | Some _ => mret (WalkReturned, ops)
              | None =>
                  match headerErr with
                  | Some _ =>
                      if we_hasData e then mret (WalkPanicked, ops)
                      else
                        let transferred := int64_add transferred 0 in
                        reportProgress transferred;;
                        walkDir rest headerErr transferred ops
                  | None =>
                      let ops := ops ++ [ZipCopy (we_copied e) (we_copyErr e)] in
                      let transferred := int64_add transferred (we_copied e) in
                      reportProgress transferred;;
                      walkDir rest (copyLeaves (we_copyErr e)) transferred ops
                  end
              end
      end
  end.

(** The part of [handleDownload] that runs once the peer holds the gate
    (between the [defer fs.releaseClient] and the function's end). *)
Definition downloadAdmitted (r : Request) (env : DownloadEnv) (clientIP : string)
    : M Response :=
  match statResult env with
  | None => mret (httpError "File not found" 404)
  | Some info =>
      modify (set_status (fun s =>
        upd_Size (if IsDir info then dirSize env else fi_Size info)
          (upd_ClientIP clientIP (upd_Status "transferring" s))));;
      broadcastStatus;;
      addLog ("Started download from " +:+ clientIP);;
      let finish (resp : Response) : M Response :=
        reportCompleted;;
        addLog ("Download completed for " +:+ clientIP);;
        mret resp in
      if IsDir info then
        '(ended, ops) ← walkDir (walk env) None 0 [];
        match ended with
        | WalkReturned =>
            resp ← finish (mkResponse 200 "application/zip" "" [] ops);
            (* deferred zipWriter.Close() *)
            mret (mkResponse (code resp) (contentType resp) (body resp) (stream resp)
                             (archive resp ++ [ZipClose]))
        | WalkPanicked =>
            (* the panic skips the rest of the handler; the deferred
               zipWriter.Close() and releaseClient still run *)
            mret (mkResponse 0 "application/zip" "" [] (ops ++ [ZipClose]))
        end
      else if decide (Range r ≠ "") then
        match openErr env with
        | Some _ => mret aborted       (* mustOpen panics *)
        | None =>
            finish (mkResponse (fst (rangeReply env)) "application/octet-stream" ""
                               (snd (rangeReply env)) [])
        end
      else
        match openErr env with
        | Some _ => mret (httpError "Failed to open file" 500)
        | None =>
            '(ok, out) ← downloadLoop (reads env) (netWrites env) 0 [];
            let resp := mkResponse 200 "application/octet-stream" "" out [] in
            if ok : bool then finish resp else mret resp
        end
  end.

Definition handleDownload (r : Request) (env : DownloadEnv) : M Response :=
  m ← get mode;
  if decide (m ≠ "send") then mret (httpError "Server is not in send mode" 400)
  else
    let clientIP := getClientIP r in
    ok ← acquireClient clientIP;
    if negb ok then mret (httpError "Another client is already connected" 503)
    else
      addLog ("Client " +:+ clientIP +:+ " connected");;
      resp ← downloadAdmitted r env clientIP;
      releaseClient clientIP;;
      mret resp.

(** ** Upload *)

(** [dst.Write(buf[:n])]: the accepted bytes are appended to the file;
    the call's error is not looked at. *)
Definition diskAppend (savePath : string) (bytes : list Byte.byte) : M unit :=
  modify (fun w => set_disk (<[savePath := default [] (disk w !! savePath) ++ bytes]> (disk w)) w).

(** The chunk loop of [handleUpload]; the result is the final value of
    [transferred]. *)
Fixpoint uploadLoop (rs : list ReadResult) (ws : list WriteOutcome)
    (savePath : string) (transferred : Z) : M Z :=
  match rs with
  | [] => mret transferred
  | r :: rs' =>
      let afterChunk transferred ws : M Z :=
        match rr_err r with
        | Some _ => mret transferred
        | None => uploadLoop rs' ws savePath transferred
        end in
      if (0 <? length (rr_data r))%nat then
        let '(_, written, ws') := doWrite (rr_data r) ws in
        diskAppend savePath written;;
        let transferred := int64_add transferred (Z.of_nat (length (rr_data r))) in
        reportProgress transferred;;
        afterChunk transferred ws'
      else afterChunk transferred ws
  end.

(** The limit of [net/http] on a urlencoded form. *)
Definition maxFormSize : Z := 10 * 2 ^ 20.

(** The bytes of the request body that [r.ParseMultipartForm] and
    [r.FormFile] read: all of a multipart body, a urlencoded body up to
    one byte past its limit, nothing of any other body. *)
Definition bodyRead (r : Request) (form : RequestBody) : Z :=
  let len := Z.of_nat (length (Body r)) in
  match form with
  | MultipartBody _ => len
  | BrokenMultipartBody consumed => Z.min (Z.of_nat consumed) len
  | UrlEncodedBody => Z.min len (maxFormSize + 1)
  | OtherBody => 0
  end.

(** [r.ParseMultipartForm(10 << 30)]: a multipart body is read and parsed
    (into memory and temporary files) before the handler looks at any of
    its parts. *)
Definition ParseMultipartForm (r : Request) (env : UploadEnv) : M unit :=
  modify (fun w => set_netIn (netIn w + bodyRead r (bodyForm env)) w).

Definition conflictBody (filename savePath : string) : string :=
  "{" +:+ dq +:+ "error" +:+ dq +:+ ":" +:+ dq +:+ "file_exists" +:+ dq +:+ ","
   +:+ dq +:+ "message" +:+ dq +:+ ":" +:+ dq +:+ "File '" +:+ filename
   +:+ "' already exists" +:+ dq +:+ "," +:+ dq +:+ "path" +:+ dq +:+ ":" +:+ dq
   +:+ savePath +:+ dq +:+ "}".

Definition successBody (savePath : string) (transferred : Z) : string :=
  "{" +:+ dq +:+ "status" +:+ dq +:+ ":" +:+ dq +:+ "success" +:+ dq +:+ ","
   +:+ dq +:+ "path" +:+ dq +:+ ":" +:+ dq +:+ savePath +:+ dq +:+ ","
   +:+ dq +:+ "size" +:+ dq +:+ ":" +:+ pretty transferred +:+ "}".

Definition uploadAdmitted (r : Request) (env : UploadEnv) (clientIP : string)
    : M Response :=
  ParseMultipartForm r env;;
  match formFile env with
  | None => mret (httpError "Failed to get file" 400)
  | Some (header, file) =>
      dir ← get path;
      let savePath := Join dir (Filename header) in
      files ← get disk;
      if decide (is_Some (files !! savePath)) then
        mret (mkResponse 409 "application/json"
                         (conflictBody (Filename header) savePath) [] [])
      else
        modify (set_status (fun s =>
          upd_Size (fh_Size header)
            (upd_ClientIP clientIP (upd_Status "transferring" s))));;
        broadcastStatus;;
        addLog ("Started upload from " +:+ clientIP +:+ ": " +:+ Filename header);;
        match createErr env with
        | Some msg =>
            reportError msg;;
            mret (httpError "Failed to create file" 500)
        | None =>
            modify (fun w => set_disk (<[savePath := []]> (disk w)) w);;
            transferred ← uploadLoop file (diskWrites env) savePath 0;
            reportCompleted;;
            addLog ("Upload completed from " +:+ clientIP +:+ ": " +:+ Filename header
                    +:+ " (" +:+ formatSize transferred +:+ ")");;
            mret (mkResponse 200 "application/json" (successBody savePath transferred) [] [])
        end
  end.

Definition handleUpload (r : Request) (env : UploadEnv) : M Response :=
  m ← get mode;
  if decide (m ≠ "recv") then mret (httpError "Server is not in receive mode" 400)
  else if decide (Method r ≠ "POST") then mret (httpError "Method not allowed" 405)
  else
    let clientIP := getClientIP r in
    ok ← acquireClient clientIP;
    if negb ok then mret (httpError "Another client is already connected" 503)
    else
      resp ← uploadAdmitted r env clientIP;
      releaseClient clientIP;;
      mret resp.

(** ** Cancel *)

Definition cancelBody : string :=
  "{" +:+ dq +:+ "status" +:+ dq +:+ ":" +:+ dq +:+ "cancelled" +:+ dq +:+ "}".

Definition handleCancel (r : Request) : M Response :=
  if decide (Method r ≠ "POST") then mret (httpError "Method not allowed" 405)
  else
    let clientIP := getClientIP r in
    releaseClient clientIP;;
    modify (set_status (upd_Status "cancelled"));;
    broadcastStatus;;
    addLog ("Transfer cancelled by " +:+ clientIP);;
    mret (mkResponse 200 "application/json" cancelBody [] []).


(** ** Whole transfers and sessions, for stating properties of runs *)

(** The byte-moving part of one transfer: the chunk loop of a file
    download, the chunk loop of an upload, or the walk of a directory
    download, each started with its local counter at zero. *)
Inductive Transfer :=
  | FileDownload (rs : list ReadResult) (ws : list WriteOutcome)
  | FileUpload (rs : list ReadResult) (ws : list WriteOutcome) (savePath : string)
  | DirDownload (entries : list WalkEntry).

Definition runTransfer (t : Transfer) : M unit :=
  match t with
  | FileDownload rs ws => downloadLoop rs ws 0 [] ≫= fun _ => mret tt
  | FileUpload rs ws savePath => uploadLoop rs ws savePath 0 ≫= fun _ => mret tt
  | DirDownload entries => walkDir entries None 0 [] ≫= fun _ => mret tt
  end.

Definition scriptBytes (rs : list ReadResult) : Z :=
  foldr (fun r acc => Z.of_nat (length (rr_data r)) + acc) 0 rs.

Definition walkBytes (entries : list WalkEntry) : Z :=
  foldr (fun e acc => we_copied e + acc) 0 entries.

(** The bytes a transfer's script offers in total. *)
Definition transferBytes (t : Transfer) : Z :=
  match t with
  | FileDownload rs _ => scriptBytes rs
  | FileUpload rs _ _ => scriptBytes rs
  | DirDownload entries => walkBytes entries
  end.

(** [io.Copy] reports a count that is not negative. *)
Definition countsValid (t : Transfer) : Prop :=
  match t with
  | DirDownload entries => Forall (fun e => 0 <= we_copied e) entries
  | _ => True
  end.

(** A request served by the session, with what the outside does during it. *)
Inductive Op :=
  | OpDownload (r : Request) (env : DownloadEnv)
  | OpUpload (r : Request) (env : UploadEnv)
  | OpCancel (r : Request).

Definition runOp (op : Op) : M Response :=
  match op with
  | OpDownload r env => handleDownload r env
  | OpUpload r env => handleUpload r env
  | OpCancel r => handleCancel r
  end.

(** The requests of a session served one after the other. *)
Definition runOps (ops : list Op) (w : World) : World :=
  foldl (fun w op => snd (runOp op w)) w ops.

(** [env] with other scripts for the chunk loop. *)
Definition withScripts (env : DownloadEnv) (rs : list ReadResult)
    (ws : list WriteOutcome) : DownloadEnv :=
  mkDownloadEnv (statResult env) (dirSize env) (walk env) (openErr env) rs ws
                (rangeReply env).


(** ** Further pieces of [main.go] *)

(** One visit of the walk in [calculateDirSize]: what [info] reports and
    the [err] the callback is handed. *)
Record SizeEntry := mkSizeEntry {
  se_isDir : bool;
  se_size : Z;
  se_err : option string
}.

(** The callback of [calculateDirSize] run over the visits with the
    accumulator [size]; the walk stops at the first error. *)
Fixpoint sumSizes (entries : list SizeEntry) (size : Z) : Z * option string :=
  match entries with
  | [] => (size, None)
  | e :: rest =>
      match se_err e with
      | Some msg => (size, Some msg)
      | None =>
          sumSizes rest (if se_isDir e then size else int64_add size (se_size e))
      end
  end.

Definition calculateDirSize (entries : list SizeEntry) : Z * option string :=
  sumSizes entries 0.

(** The test of [waitForComplete]'s polling loop: the phases at which an
    auto-exit server shuts down. *)
Definition terminalPhase (phase : string) : bool :=
  bool_decide (phase = "completed") || bool_decide (phase = "cancelled")
  || bool_decide (phase = "error").

(** The registration at the head of [handleEvents] and its deferred
    removal; [ch] is the channel just made, with nothing buffered. *)
Definition sseRegister (ch : nat) : M unit :=
  modify (fun w => set_sseClients (<[ch := []]> (sseClients w)) w).

Definition sseUnregister (ch : nat) : M unit :=
  modify (fun w => set_sseClients (delete ch (sseClients w)) w).

(** ** Vocabulary for the scripts *)

(** The bytes of a read script up to and including its first entry that
    carries an error. *)
Fixpoint readUntilErr (rs : list ReadResult) : list Byte.byte :=
  match rs with
  | [] => []
  | r :: rs' =>
      rr_data r ++ (if rr_err r is None then readUntilErr rs' else [])
  end.

(** The first error of a read script; an exhausted script ends in EOF. *)
Fixpoint firstErr (rs : list ReadResult) : ioerr :=
  match rs with
  | [] => EOF
  | r :: rs' => if rr_err r is Some e then e else firstErr rs'
  end.

Definition allAccepted (ws : list WriteOutcome) : Prop :=
  Forall (fun o => o = None) ws.

(** Whether the walk over [entries] comes to an [io.Copy] that is handed
    a nil writer and a file with data, that is, whether the callback
    panics; [zipErr] is the error the archive keeps at the start. *)
Fixpoint walkPanics (entries : list WalkEntry) (zipErr : option string) : bool :=
  match entries with
  | [] => false
  | e :: rest =>
      match we_walkErr e with
      | Some _ => false
      | None =>
          if decide (we_relPath e = ".") then walkPanics rest zipErr
          else
            let headerErr := createHeader zipErr e in
            if we_isDir e then walkPanics rest headerErr
            else
              match we_openErr e with
              | Some _ => false
              | None =>
                  match headerErr with
                  | Some _ => we_hasData e || walkPanics rest headerErr
                  | None => walkPanics rest (copyLeaves (we_copyErr e))
                  end
              end
      end
  end.

(** No write into the archive fails during the walk. *)
Definition writesIntact (entries : list WalkEntry) : Prop :=
  Forall (fun e => we_headerErr e = None ∧ copyLeaves (we_copyErr e) = None) entries.

(** Every subscriber's channel holds at most its capacity. *)
Definition buffersBounded (w : World) : Prop :=
  map_Forall (fun _ buf => (length buf <= chanCap)%nat) (sseClients w).

(** The files of an error-free size walk. *)
Definition fileSizes (entries : list SizeEntry) : Z :=
  foldr (fun e acc => (if se_isDir e then 0 else se_size e) + acc) 0 entries.

(** The payload [broadcastStatus] builds from the current state. *)
Definition snapshotOf (w : World) : Snapshot :=
  mkSnapshot (Status (status w)) (Progress (status w)) (Transferred (status w))
             (activeClient w) (Error (status w)).

(** ** Concrete sessions used in the examples *)

Module Fixtures.

Definition clock : nat -> Time := fun k => 47220 + Z.of_nat k.

Definition bytes (s : string) : list Byte.byte := list_byte_of_string s.

Definition peerA : string := "192.168.1.1".
Definition peerB : string := "192.168.1.2".

Definition sendServer : World :=
  NewFileServer "send" "/srv/share/report.txt" clock ∅.

Definition sendDirServer : World :=
  NewFileServer "send" "/srv/share/photos" clock ∅.

(** A receive directory that already holds [notes.txt]. *)
Definition recvServer : World :=
  NewFileServer "recv" "/srv/inbox" clock
                {[ "/srv/inbox/notes.txt" := bytes "existing" ]}.

(** The same directory, named with a trailing slash on the command line. *)
Definition recvServerSlash : World :=
  NewFileServer "recv" "/srv/inbox/" clock
                {[ "/srv/inbox/notes.txt" := bytes "existing" ]}.

Definition GET (addr range : string) : Request := mkRequest "GET" addr range [].
Definition POST (addr : string) (payload : list Byte.byte) : Request :=
  mkRequest "POST" addr "" payload.

(** The send server while [peerA] holds the gate. *)
Definition sendServerHeld : World := snd (acquireClient peerA sendServer).

(** A 5-byte file read in two chunks. *)
Definition fileEnv (ws : list WriteOutcome) : DownloadEnv :=
  mkDownloadEnv (Some (mkFileInfo false 5)) 0 [] None
    [mkRead (bytes "abc") None; mkRead (bytes "de") None; mkRead [] (Some EOF)]
    ws (206, bytes "bc").

(** A visit of a regular file that opens and holds data. *)
Definition fileVisit (relPath : string) (copied : Z) (copyErr : option CopyErr)
    : WalkEntry :=
  mkWalkEntry relPath false None None None true copied copyErr.

Definition rootVisit : WalkEntry := mkWalkEntry "." true None None None false 0 None.

(** A directory with two files that reach the peer whole. *)
Definition dirEnv : DownloadEnv :=
  mkDownloadEnv (Some (mkFileInfo true 4096)) 1050624
    [rootVisit; fileVisit "a.bin" 1048576 None; fileVisit "b.bin" 2048 None]
    None [] [] (0, []).

(** The same directory; the peer goes away while the first file is copied
    into the archive, after 65536 of its bytes. *)
Definition dirEnvBroken : DownloadEnv :=
  mkDownloadEnv (Some (mkFileInfo true 4096)) 1050624
    [rootVisit;
     fileVisit "a.bin" 65536 (Some (CopyWriteErr "write: broken pipe"));
     fileVisit "b.bin" 2048 None]
    None [] [] (0, []).

(** A directory with one file, and the peer going away during its copy. *)
Definition dirEnvLast : DownloadEnv :=
  mkDownloadEnv (Some (mkFileInfo true 4096)) 1048576
    [rootVisit;
     fileVisit "a.bin" 65536 (Some (CopyWriteErr "write: broken pipe"))]
    None [] [] (0, []).

(** An upload of [name] whose part yields [script]. *)
Definition uploadEnv (name : string) (size : Z) (script : list ReadResult)
    (ws : list WriteOutcome) : UploadEnv :=
  mkUploadEnv (MultipartBody (Some (mkFileHeader name size, script))) None ws.

End Fixtures.


(** * Properties *)

Import Fixtures.

Ltac munfold :=
  unfold mbind, M_bind, mret, M_ret, get, modify in *.

Lemma set_activeClient_same (w : World) : set_activeClient (activeClient w) w = w.
Proof. by destruct w. Qed.

(** ** Admission gate *)

Lemma acquireClient_free (p : string) (w : World) :
  activeClient w = "" -> acquireClient p w = (true, set_activeClient p w).
Proof.
  intros Hfree. unfold acquireClient. munfold. rewrite Hfree.
  destruct (decide ("" ≠ "" ∧ "" ≠ p)) as [[Hne _] | _]; [done |].
  by destruct (decide ("" = "")).
Qed.

Lemma acquireClient_same (p : string) (w : World) :
  activeClient w = p -> acquireClient p w = (true, w).
Proof.
  intros Hp. unfold acquireClient. munfold.
  destruct (decide (activeClient w ≠ "" ∧ activeClient w ≠ p)) as [[_ Hne] | _]; [done |].
  destruct (decide (activeClient w = "")) as [He | _]; [| done].
  simpl. rewrite <- Hp at 1. by rewrite set_activeClient_same.
Qed.

Lemma acquireClient_busy (p : string) (w : World) :
  activeClient w ≠ "" -> activeClient w ≠ p -> acquireClient p w = (false, w).
Proof.
  intros H1 H2. unfold acquireClient. munfold.
  destruct (decide (activeClient w ≠ "" ∧ activeClient w ≠ p)) as [_ | Hn]; [done |].
  destruct Hn. by split.
Qed.

(** C1: [acquireClient p] returns true and makes [p] the holder when there is
    no holder, returns true and changes nothing when the holder is [p], and
    returns false and changes nothing when somebody else holds the gate; the
    two transfer handlers then answer 503 at once, the world untouched: a
    rejected peer is not queued anywhere. *)
Theorem acquireClient_contract (p : string) (w : World) :
  (activeClient w = "" ->
     acquireClient p w = (true, set_activeClient p w)
     ∧ activeClient (snd (acquireClient p w)) = p) ∧
  (activeClient w = p -> acquireClient p w = (true, w)) ∧
  (activeClient w ≠ "" -> activeClient w ≠ p -> acquireClient p w = (false, w)) ∧
  (forall r denv uenv,
     getClientIP r = p -> activeClient w ≠ "" -> activeClient w ≠ p ->
     (mode w = "send" ->
        handleDownload r denv w = (httpError "Another client is already connected" 503, w)) ∧
     (mode w = "recv" -> Method r = "POST" ->
        handleUpload r uenv w = (httpError "Another client is already connected" 503, w))).
Proof.
  repeat split.
  - by apply acquireClient_free.
  - by rewrite acquireClient_free.
  - apply acquireClient_same.
  - apply acquireClient_busy.
  - intros Hm. unfold handleDownload. munfold. rewrite Hm.
    destruct (decide ("send" ≠ "send")); [done |].
    rewrite H, acquireClient_busy by done. done.
  - intros Hm Hpost. unfold handleUpload. munfold. rewrite Hm, Hpost.
    destruct (decide ("recv" ≠ "recv")); [done |].
    destruct (decide ("POST" ≠ "POST")); [done |].
    rewrite H, acquireClient_busy by done. done.
Qed.

Lemma acquireClient_contract_witness :
  acquireClient peerA sendServer = (true, set_activeClient peerA sendServer) ∧
  acquireClient peerA sendServerHeld = (true, sendServerHeld) ∧
  acquireClient peerB sendServerHeld = (false, sendServerHeld) ∧
  handleDownload (GET "192.168.1.2:50200" "") (fileEnv []) sendServerHeld
    = (httpError "Another client is already connected" 503, sendServerHeld).
Proof.
  destruct (acquireClient_contract peerA sendServer) as (Hfree & _).
  destruct (acquireClient_contract peerA sendServerHeld) as (_ & Hsame & _).
  destruct (acquireClient_contract peerB sendServerHeld) as (_ & _ & Hbusy & Hanswer).
  split; [| split; [| split]].
  - apply Hfree. reflexivity.
  - apply Hsame. reflexivity.
  - apply Hbusy; discriminate.
  - apply (Hanswer (GET "192.168.1.2:50200" "") (fileEnv []) (uploadEnv "x" 0 [] []));
      [reflexivity | discriminate | discriminate | reflexivity].
Defined.

(** ** Peer identity *)

Lemma LastIndex_cons (a : ascii) (rest sep : string) :
  LastIndex (String a rest) sep =
  if 0 <=? LastIndex rest sep then 1 + LastIndex rest sep
  else if String.prefix sep (String a rest) then 0 else -1.
Proof. reflexivity. Qed.

Lemma LastIndex_after_host (host port : string) :
  LastIndex port ":" = -1 ->
  LastIndex (host +:+ ":" +:+ port) ":" = Z.of_nat (String.length host).
Proof.
  intros Hport. induction host as [| a host IH].
  - change ("" +:+ ":" +:+ port) with (String ":" port).
    rewrite LastIndex_cons, Hport. simpl. by destruct port.
  - change (String a host +:+ ":" +:+ port) with (String a (host +:+ ":" +:+ port)).
    rewrite LastIndex_cons, IH.
    destruct (Z.leb_spec 0 (Z.of_nat (String.length host))) as [_ | Hneg]; [| lia].
    simpl String.length. lia.
Qed.

Lemma slice_to_host (host rest : string) :
  slice_to (host +:+ rest) (Z.of_nat (String.length host)) = host.
Proof.
  unfold slice_to. rewrite Nat2Z.id.
  induction host as [| a host IH]; simpl.
  - by destruct rest.
  - by rewrite IH.
Qed.

Lemma getClientIP_host_port (r : Request) (host port : string) :
  LastIndex port ":" = -1 ->
  RemoteAddr r = host +:+ ":" +:+ port ->
  getClientIP r = Trim host "[]".
Proof.
  intros Hport Haddr. unfold getClientIP. rewrite Haddr.
  rewrite (LastIndex_after_host host port Hport).
  destruct (decide (Z.of_nat (String.length host) ≠ -1)) as [_ | Hn]; [| lia].
  by rewrite slice_to_host.
Qed.

(** C10: the peer identifier of a request is its remote address cut at the
    last colon and stripped of surrounding square brackets, so two
    connections from one host on different ports carry the same identifier,
    and once the first is admitted the second is admitted as well, the gate
    unchanged. *)
Theorem getClientIP_same_host (host port1 port2 : string) (r1 r2 : Request) (w : World) :
  LastIndex port1 ":" = -1 ->
  LastIndex port2 ":" = -1 ->
  RemoteAddr r1 = host +:+ ":" +:+ port1 ->
  RemoteAddr r2 = host +:+ ":" +:+ port2 ->
  getClientIP r1 = Trim host "[]" ∧
  getClientIP r2 = getClientIP r1 ∧
  (forall w1, acquireClient (getClientIP r1) w = (true, w1) ->
              acquireClient (getClientIP r2) w1 = (true, w1)).
Proof.
  intros Hp1 Hp2 Ha1 Ha2.
  rewrite (getClientIP_host_port r1 host port1 Hp1 Ha1).
  rewrite (getClientIP_host_port r2 host port2 Hp2 Ha2).
  repeat split. intros w1 Hacq.
  destruct (decide (activeClient w = "")) as [Hfree | Hheld].
  - rewrite acquireClient_free in Hacq by done.
    injection Hacq as <-. by apply acquireClient_same.
  - destruct (decide (activeClient w = Trim host "[]")) as [Hsame | Hother].
    + rewrite acquireClient_same in Hacq by done.
      injection Hacq as <-. by apply acquireClient_same.
    + rewrite acquireClient_busy in Hacq by done. discriminate.
Qed.

Lemma getClientIP_same_host_witness :
  let r1 := GET "[::1]:12345" "" in
  let r2 := GET "[::1]:54321" "" in
  getClientIP r1 = "::1" ∧ getClientIP r2 = getClientIP r1 ∧
  acquireClient (getClientIP r2) (snd (acquireClient (getClientIP r1) sendServer))
    = (true, snd (acquireClient (getClientIP r1) sendServer)).
Proof.
  intros r1 r2.
  destruct (getClientIP_same_host "[::1]" "12345" "54321" r1 r2 sendServer)
    as (Hid & Hsame & Hboth); [reflexivity | reflexivity | reflexivity | reflexivity |].
  split; [exact Hid |]. split; [exact Hsame |].
  apply Hboth. reflexivity.
Defined.

(** The bracketed IPv6 form of the unit test. *)
Example getClientIP_ipv6 (m rg : string) (b : list Byte.byte) :
  getClientIP (mkRequest m "[::1]:12345" rg b) = "::1".
Proof. reflexivity. Qed.


(** ** Running the monad, one operation at a time *)

Lemma bind_run {A B} (m : M A) (f : A -> M B) (w : World) :
  (m ≫= f) w = f (fst (m w)) (snd (m w)).
Proof. unfold mbind, M_bind. by destruct (m w). Qed.

Lemma mret_run {A} (a : A) (w : World) : (mret a : M A) w = (a, w).
Proof. reflexivity. Qed.

Lemma modify_run (f : World -> World) (w : World) : modify f w = (tt, f w).
Proof. reflexivity. Qed.

Lemma get_run {A} (proj : World -> A) (w : World) : get proj w = (proj w, w).
Proof. reflexivity. Qed.

Ltac run :=
  repeat progress
    (rewrite ?bind_run, ?mret_run, ?modify_run, ?get_run; cbv beta; cbn [fst snd]).

(** *** What each operation leaves alone *)


Section Frame.
Variable w : World.

Lemma set_status_status f : status (set_status f w) = f (status w).
Proof. reflexivity. Qed.
Lemma set_status_history f :
  statusHistory (set_status f w) = statusHistory w ++ [f (status w)].
Proof. reflexivity. Qed.
Lemma set_status_active f : activeClient (set_status f w) = activeClient w.
Proof. reflexivity. Qed.
Lemma set_status_disk f : disk (set_status f w) = disk w.
Proof. reflexivity. Qed.
Lemma set_status_netIn f : netIn (set_status f w) = netIn w.
Proof. reflexivity. Qed.

Lemma set_activeClient_status c : status (set_activeClient c w) = status w.
Proof. reflexivity. Qed.
Lemma set_activeClient_history c :
  statusHistory (set_activeClient c w) = statusHistory w.
Proof. reflexivity. Qed.
Lemma set_activeClient_active c : activeClient (set_activeClient c w) = c.
Proof. reflexivity. Qed.
Lemma set_activeClient_disk c : disk (set_activeClient c w) = disk w.
Proof. reflexivity. Qed.
Lemma set_activeClient_netIn c : netIn (set_activeClient c w) = netIn w.
Proof. reflexivity. Qed.

Lemma set_netIn_status n : status (set_netIn n w) = status w.
Proof. reflexivity. Qed.
Lemma set_netIn_history n : statusHistory (set_netIn n w) = statusHistory w.
Proof. reflexivity. Qed.
Lemma set_netIn_active n : activeClient (set_netIn n w) = activeClient w.
Proof. reflexivity. Qed.
Lemma set_netIn_disk n : disk (set_netIn n w) = disk w.
Proof. reflexivity. Qed.
Lemma set_netIn_netIn n : netIn (set_netIn n w) = n.
Proof. reflexivity. Qed.
Lemma set_netIn_path n : path (set_netIn n w) = path w.
Proof. reflexivity. Qed.
Lemma set_activeClient_path c : path (set_activeClient c w) = path w.
Proof. reflexivity. Qed.

Lemma set_disk_status d : status (set_disk d w) = status w.
Proof. reflexivity. Qed.
Lemma set_disk_history d : statusHistory (set_disk d w) = statusHistory w.
Proof. reflexivity. Qed.
Lemma set_disk_active d : activeClient (set_disk d w) = activeClient w.
Proof. reflexivity. Qed.

Lemma broadcastStatus_status : status (snd (broadcastStatus w)) = status w.
Proof. reflexivity. Qed.
Lemma broadcastStatus_history :
  statusHistory (snd (broadcastStatus w)) = statusHistory w.
Proof. reflexivity. Qed.
Lemma broadcastStatus_active : activeClient (snd (broadcastStatus w)) = activeClient w.
Proof. reflexivity. Qed.
Lemma broadcastStatus_disk : disk (snd (broadcastStatus w)) = disk w.
Proof. reflexivity. Qed.
Lemma broadcastStatus_netIn : netIn (snd (broadcastStatus w)) = netIn w.
Proof. reflexivity. Qed.

Lemma addLog_status message : status (snd (addLog message w)) = status w.
Proof. reflexivity. Qed.
Lemma addLog_history message :
  statusHistory (snd (addLog message w)) = statusHistory w.
Proof. reflexivity. Qed.
Lemma addLog_active message : activeClient (snd (addLog message w)) = activeClient w.
Proof. reflexivity. Qed.
Lemma addLog_disk message : disk (snd (addLog message w)) = disk w.
Proof. reflexivity. Qed.
Lemma addLog_netIn message : netIn (snd (addLog message w)) = netIn w.
Proof. reflexivity. Qed.

Lemma reportCompleted_status :
  status (snd (reportCompleted w))
  = upd_Progress 100%Q (upd_Status "completed" (status w)).
Proof. reflexivity. Qed.
Lemma reportCompleted_history :
  statusHistory (snd (reportCompleted w))
  = statusHistory w ++ [upd_Progress 100%Q (upd_Status "completed" (status w))].
Proof. reflexivity. Qed.
Lemma reportCompleted_active : activeClient (snd (reportCompleted w)) = activeClient w.
Proof. reflexivity. Qed.
Lemma reportCompleted_disk : disk (snd (reportCompleted w)) = disk w.
Proof. reflexivity. Qed.
Lemma reportCompleted_netIn : netIn (snd (reportCompleted w)) = netIn w.
Proof. reflexivity. Qed.

Lemma reportError_status msg :
  status (snd (reportError msg w)) = upd_Error msg (upd_Status "error" (status w)).
Proof. reflexivity. Qed.

Lemma releaseClient_status c : status (snd (releaseClient c w)) = status w.
Proof. unfold releaseClient. munfold. by destruct (decide (activeClient w = c)). Qed.
Lemma releaseClient_history c :
  statusHistory (snd (releaseClient c w)) = statusHistory w.
Proof. unfold releaseClient. munfold. by destruct (decide (activeClient w = c)). Qed.
Lemma releaseClient_disk c : disk (snd (releaseClient c w)) = disk w.
Proof. unfold releaseClient. munfold. by destruct (decide (activeClient w = c)). Qed.
Lemma releaseClient_netIn c : netIn (snd (releaseClient c w)) = netIn w.
Proof. unfold releaseClient. munfold. by destruct (decide (activeClient w = c)). Qed.
Lemma releaseClient_active c :
  activeClient (snd (releaseClient c w))
  = if decide (activeClient w = c) then "" else activeClient w.
Proof. unfold releaseClient. munfold. by destruct (decide (activeClient w = c)). Qed.

End Frame.

Create Rewrite HintDb frame.

#[local] Hint Rewrite
  set_status_status set_status_history set_status_active set_status_disk set_status_netIn
  set_activeClient_status set_activeClient_history set_activeClient_active
  set_activeClient_disk set_activeClient_netIn set_activeClient_path
  set_netIn_status set_netIn_history set_netIn_active set_netIn_disk set_netIn_netIn
  set_netIn_path set_disk_status set_disk_history set_disk_active
  broadcastStatus_status broadcastStatus_history broadcastStatus_active
  broadcastStatus_disk broadcastStatus_netIn
  addLog_status addLog_history addLog_active addLog_disk addLog_netIn
  reportCompleted_status reportCompleted_history reportCompleted_active
  reportCompleted_disk reportCompleted_netIn reportError_status
  releaseClient_status releaseClient_history releaseClient_disk releaseClient_netIn
  releaseClient_active : frame.

Ltac frame := autorewrite with frame.

(** ** Running an admitted request *)

Lemma releaseClient_holder (c : string) (w : World) :
  activeClient w = c ->
  releaseClient c w
  = addLog ("Client " +:+ c +:+ " disconnected") (set_activeClient "" w).
Proof.
  intros Hc. unfold releaseClient. munfold.
  by destruct (decide (activeClient w = c)).
Qed.

Lemma acquireClient_admitted (p : string) (w : World) :
  activeClient w = "" ∨ activeClient w = p ->
  acquireClient p w = (true, set_activeClient p w).
Proof.
  intros [Hfree | Hsame].
  - by apply acquireClient_free.
  - rewrite acquireClient_same by done. subst p. by rewrite set_activeClient_same.
Qed.

Lemma handleDownload_admitted (r : Request) (env : DownloadEnv) (w : World) :
  mode w = "send" ->
  activeClient w = "" ∨ activeClient w = getClientIP r ->
  handleDownload r env w =
    let ip := getClientIP r in
    let w1 := snd (addLog ("Client " +:+ ip +:+ " connected") (set_activeClient ip w)) in
    let res := downloadAdmitted r env ip w1 in
    (fst res, snd (releaseClient ip (snd res))).
Proof.
  intros Hmode Hgate. unfold handleDownload.
  rewrite bind_run. unfold get. cbn [fst snd]. rewrite Hmode.
  destruct (decide ("send" ≠ "send")); [done |].
  rewrite bind_run, (acquireClient_admitted _ _ Hgate). cbn [fst snd negb].
  by rewrite !bind_run.
Qed.

Lemma handleUpload_admitted (r : Request) (env : UploadEnv) (w : World) :
  mode w = "recv" ->
  Method r = "POST" ->
  activeClient w = "" ∨ activeClient w = getClientIP r ->
  handleUpload r env w =
    let ip := getClientIP r in
    let res := uploadAdmitted r env ip (set_activeClient ip w) in
    (fst res, snd (releaseClient ip (snd res))).
Proof.
  intros Hmode Hpost Hgate. unfold handleUpload.
  rewrite bind_run. unfold get. cbn [fst snd]. rewrite Hmode, Hpost.
  destruct (decide ("recv" ≠ "recv")); [done |].
  destruct (decide ("POST" ≠ "POST")); [done |].
  rewrite bind_run, (acquireClient_admitted _ _ Hgate). cbn [fst snd negb].
  by rewrite !bind_run.
Qed.


Lemma handleDownload_world (r : Request) (env : DownloadEnv) (w : World) :
  mode w = "send" ->
  activeClient w = "" ∨ activeClient w = getClientIP r ->
  snd (handleDownload r env w) =
    snd (releaseClient (getClientIP r)
           (snd (downloadAdmitted r env (getClientIP r)
                   (snd (addLog ("Client " +:+ getClientIP r +:+ " connected")
                           (set_activeClient (getClientIP r) w)))))).
Proof. intros Hmode Hgate. by rewrite handleDownload_admitted. Qed.

Lemma handleDownload_response (r : Request) (env : DownloadEnv) (w : World) :
  mode w = "send" ->
  activeClient w = "" ∨ activeClient w = getClientIP r ->
  fst (handleDownload r env w) =
    fst (downloadAdmitted r env (getClientIP r)
           (snd (addLog ("Client " +:+ getClientIP r +:+ " connected")
                   (set_activeClient (getClientIP r) w)))).
Proof. intros Hmode Hgate. by rewrite handleDownload_admitted. Qed.

Lemma handleUpload_world (r : Request) (env : UploadEnv) (w : World) :
  mode w = "recv" ->
  Method r = "POST" ->
  activeClient w = "" ∨ activeClient w = getClientIP r ->
  snd (handleUpload r env w) =
    snd (releaseClient (getClientIP r)
           (snd (uploadAdmitted r env (getClientIP r)
                   (set_activeClient (getClientIP r) w)))).
Proof. intros Hmode Hpost Hgate. by rewrite handleUpload_admitted. Qed.



(** ** Transfer log *)

Lemma appendLog_length (log : list string) (e : string) :
  (length (appendLog log e) <= logCap)%nat.
Proof.
  unfold appendLog.
  destruct (Nat.ltb_spec logCap (length (log ++ [e]))) as [Hgt | Hle]; [| done].
  rewrite length_drop. lia.
Qed.

Lemma appendLog_suffix (log : list string) (e : string) :
  appendLog log e = drop (length log + 1 - logCap)%nat (log ++ [e]).
Proof.
  unfold appendLog. rewrite length_app. simpl length.
  destruct (Nat.ltb_spec logCap (length log + 1)) as [Hgt | Hle]; [done |].
  by replace (length log + 1 - logCap)%nat with 0%nat by lia.
Qed.

Lemma appendLog_last (log : list string) (e : string) :
  last (appendLog log e) = Some e.
Proof.
  rewrite appendLog_suffix.
  assert (Hsplit : drop (length log + 1 - logCap)%nat (log ++ [e])
                   = drop (length log + 1 - logCap)%nat log ++ [e]).
  { rewrite drop_app.
    replace (length log + 1 - logCap - length log)%nat with 0%nat by (unfold logCap; lia).
    done. }
  rewrite Hsplit. apply last_snoc.
Qed.

Lemma appendLog_full (e1 : string) (rest : list string) (e : string) :
  length rest = 99%nat -> appendLog (e1 :: rest) e = rest ++ [e].
Proof.
  intros Hlen. rewrite appendLog_suffix. simpl length. rewrite Hlen. done.
Qed.

Lemma addLog_transferLog (message : string) (w : World) :
  transferLog (snd (addLog message w))
  = appendLog (transferLog w) (logEntryOf (wallClock w (ticks w)) message).
Proof. reflexivity. Qed.

(** C6: after an append the log holds at most 100 entries, the new entry is
    its last one, and what is kept is the newest end of the old log followed
    by the new entry, in the old order; appending to a full log of 100 drops
    exactly its first entry, so its second entry becomes the oldest. *)
Theorem addLog_bounded_fifo (message : string) (w : World) :
  let entry := logEntryOf (wallClock w (ticks w)) message in
  let log' := transferLog (snd (addLog message w)) in
  (length log' <= 100)%nat ∧
  last log' = Some entry ∧
  log' = drop (length (transferLog w) + 1 - 100)%nat (transferLog w ++ [entry]) ∧
  (forall e1 e2 rest,
     transferLog w = e1 :: e2 :: rest -> length (transferLog w) = 100%nat ->
     log' = e2 :: rest ++ [entry] ∧ head log' = Some e2 ∧
     (NoDup (transferLog w ++ [entry]) -> e1 ∉ log')).
Proof.
  intros entry log'. subst log'. rewrite addLog_transferLog. fold entry.
  split; [apply appendLog_length |].
  split; [apply appendLog_last |].
  split; [apply appendLog_suffix |].
  intros e1 e2 rest Hlog Hlen. rewrite Hlog in *.
  rewrite (appendLog_full e1 (e2 :: rest) entry) by (simpl in Hlen; simpl; lia).
  repeat split. intros Hnodup. by apply NoDup_cons in Hnodup as [Hnotin _].
Qed.

Lemma addLog_bounded_fifo_witness :
  let full := Nat.iter 100 (fun w => snd (addLog "tick" w)) sendServer in
  length (transferLog full) = 100%nat ∧
  (length (transferLog (snd (addLog "one more" full))) <= 100)%nat ∧
  head (transferLog (snd (addLog "one more" full))) = transferLog full !! 1%nat.
Proof.
  intros full.
  destruct (addLog_bounded_fifo "one more" full) as (Hlen & _ & _ & Hfull).
  assert (Hshape : exists e1 e2 rest, transferLog full = e1 :: e2 :: rest).
  { vm_compute. eauto. }
  destruct Hshape as (e1 & e2 & rest & Hlog).
  destruct (Hfull e1 e2 rest Hlog) as (_ & Hhead & _); [by vm_compute |].
  split; [by vm_compute |].
  split; [exact Hlen |].
  by rewrite Hhead, Hlog.
Defined.

(** X22: over a whole session the log is the newest 100 of everything that was
    ever appended to it. *)
Lemma appendLog_run (entries : list string) :
  foldl appendLog [] entries = drop (length entries - logCap)%nat entries.
Proof.
  induction entries as [| e entries IH] using rev_ind; [done |].
  rewrite foldl_app. simpl foldl. rewrite IH, appendLog_suffix.
  rewrite length_drop, length_app. simpl length. unfold logCap.
  destruct (Nat.le_gt_cases (length entries) 100) as [Hle | Hgt].
  - replace (length entries - 100)%nat with 0%nat by lia.
    rewrite drop_0. f_equal. lia.
  - replace (length entries - (length entries - 100) + 1 - 100)%nat with 1%nat by lia.
    rewrite (drop_app_le (drop _ entries)) by (rewrite length_drop; lia).
    rewrite (drop_app_le entries) by lia.
    rewrite drop_drop. do 2 f_equal. lia.
Qed.

(** ** Monotone progress *)

Lemma wrap64_small (z : Z) : 0 <= z < 2 ^ 63 -> wrap64 z = z.
Proof.
  intros Hz. unfold wrap64.
  change (2 ^ 64) with (2 ^ 63 + 2 ^ 63).
  rewrite Z.mod_small; lia.
Qed.

Lemma reportProgress_history (t : Z) (w : World) :
  let w' := snd (reportProgress t w) in
  statusHistory w' = statusHistory w ++ [status w'] ∧
  Transferred (status w') = t ∧
  Error (status w') = Error (status w) ∧
  Status (status w') = Status (status w).
Proof.
  unfold reportProgress, timeNow, broadcastStatus. munfold. simpl.
  by destruct (0 <? Size (status w)).
Qed.

Lemma scriptBytes_nonneg (rs : list ReadResult) : 0 <= scriptBytes rs.
Proof. induction rs; simpl; lia. Qed.

Lemma sorted_cons_lower (x : Z) (h : list TransferStatus) :
  Forall (fun s => x <= Transferred s) h ->
  StronglySorted Z.le (Transferred <$> h) ->
  forall s, Transferred s = x -> StronglySorted Z.le (Transferred <$> (s :: h)).
Proof.
  intros Hall Hs s Hx. simpl. constructor; [done |].
  rewrite Hx. apply Forall_fmap. done.
Qed.

Lemma sorted_single (s : TransferStatus) : StronglySorted Z.le (Transferred <$> [s]).
Proof. repeat constructor. Qed.

Lemma uploadLoop_history (rs : list ReadResult) :
  forall ws savePath t w,
    0 <= t -> t + scriptBytes rs < 2 ^ 63 ->
    exists h,
      statusHistory (snd (uploadLoop rs ws savePath t w)) = statusHistory w ++ h ∧
      Forall (fun s => t <= Transferred s) h ∧
      StronglySorted Z.le (Transferred <$> h).
Proof.
  induction rs as [| r rs IH]; intros ws savePath t w Ht Hsum.
  - exists []. simpl. rewrite app_nil_r. repeat split; constructor.
  - simpl in Hsum. pose proof (scriptBytes_nonneg rs) as Hrest.
    simpl uploadLoop.
    destruct (0 <? length (rr_data r))%nat.
    + destruct (doWrite (rr_data r) ws) as [[werr written] ws'].
      rewrite !bind_run.
      set (t' := int64_add t (Z.of_nat (length (rr_data r)))).
      assert (Ht' : t' = t + Z.of_nat (length (rr_data r))).
      { subst t'. unfold int64_add. apply wrap64_small. lia. }
      set (w1 := snd (diskAppend savePath written w)).
      destruct (reportProgress_history t' w1) as (Hh & Htr & _ & _).
      set (w2 := snd (reportProgress t' w1)) in *.
      assert (Hh2 : statusHistory w2 = statusHistory w ++ [status w2]) by done.
      destruct (rr_err r).
      * exists [status w2]. split; [done |]. split; [| apply sorted_single].
        constructor; [lia | constructor].
      * destruct (IH ws' savePath t' w2) as (h & Hh' & Hall & Hsorted); [lia | lia |].
        exists (status w2 :: h). split; [| split].
        -- rewrite Hh', Hh2. by rewrite <- app_assoc.
        -- constructor; [lia |]. eapply Forall_impl; [exact Hall |]. simpl. intros; lia.
        -- by apply (sorted_cons_lower t').
    + destruct (rr_err r).
      * exists []. simpl. rewrite app_nil_r. repeat split; constructor.
      * destruct (IH ws savePath t w) as (h & Hh' & Hall & Hsorted); [lia | lia |].
        by exists h.
Qed.

Lemma downloadLoop_history (rs : list ReadResult) :
  forall ws t out w b,
    0 <= t -> t + scriptBytes rs < 2 ^ 63 ->
    b <= t -> b <= Transferred (status w) ->
    exists h,
      statusHistory (snd (downloadLoop rs ws t out w)) = statusHistory w ++ h ∧
      Forall (fun s => b <= Transferred s) h ∧
      StronglySorted Z.le (Transferred <$> h).
Proof.
  induction rs as [| r rs IH]; intros ws t out w b Ht Hsum Hbt Hbw.
  - exists []. simpl. rewrite app_nil_r. repeat split; constructor.
  - simpl in Hsum. pose proof (scriptBytes_nonneg rs) as Hrest.
    assert (Hafter : forall ws1 t1 out1 w1 b1,
      0 <= t1 -> t1 + scriptBytes rs < 2 ^ 63 ->
      b1 <= t1 -> b1 <= Transferred (status w1) ->
      exists h,
        statusHistory (snd (match rr_err r with
                            | Some EOF => mret (true, out1)
                            | Some (IOErr msg) => reportError msg;; mret (false, out1)
                            | None => downloadLoop rs ws1 t1 out1
                            end w1)) = statusHistory w1 ++ h ∧
        Forall (fun s => b1 <= Transferred s) h ∧
        StronglySorted Z.le (Transferred <$> h)).
    { intros ws1 t1 out1 w1 b1 Ht1 Hsum1 Hb1 Hbw1.
      destruct (rr_err r) as [[| msg] |].
      - exists []. simpl. rewrite app_nil_r. repeat split; constructor.
      - exists [status (snd (reportError msg w1))].
        split; [done |]. split; [| apply sorted_single].
        constructor; [by simpl | constructor].
      - by apply IH. }
    simpl downloadLoop.
    destruct (0 <? length (rr_data r))%nat.
    + destruct (doWrite (rr_data r) ws) as [[werr sent] ws'].
      destruct werr as [msg |].
      * exists [status (snd (reportError msg w))].
        split; [done |]. split; [| apply sorted_single].
        constructor; [by simpl | constructor].
      * rewrite bind_run.
        set (t' := int64_add t (Z.of_nat (length (rr_data r)))).
        assert (Ht' : t' = t + Z.of_nat (length (rr_data r))).
        { subst t'. unfold int64_add. apply wrap64_small. lia. }
        destruct (reportProgress_history t' w) as (Hh & Htr & _ & _).
        set (w2 := snd (reportProgress t' w)) in *.
        destruct (Hafter ws' t' (out ++ sent) w2 t') as (h & Hh' & Hall & Hsorted);
          [lia | lia | lia | lia |].
        exists (status w2 :: h). split; [| split].
        -- rewrite Hh', Hh. by rewrite <- app_assoc.
        -- constructor; [lia |]. eapply Forall_impl; [exact Hall |]. simpl. intros; lia.
        -- by apply (sorted_cons_lower t').
    + apply Hafter; lia.
Qed.

Lemma walkBytes_nonneg (entries : list WalkEntry) :
  Forall (fun e => 0 <= we_copied e) entries -> 0 <= walkBytes entries.
Proof. induction 1; simpl; lia. Qed.

Lemma walkDir_history (entries : list WalkEntry) :
  forall zipErr t ops w,
    Forall (fun e => 0 <= we_copied e) entries ->
    0 <= t -> t + walkBytes entries < 2 ^ 63 ->
    exists h,
      statusHistory (snd (walkDir entries zipErr t ops w)) = statusHistory w ++ h ∧
      Forall (fun s => t <= Transferred s) h ∧
      StronglySorted Z.le (Transferred <$> h).
Proof.
  induction entries as [| e rest IH]; intros zipErr t ops w Hvalid Ht Hsum.
  - exists []. simpl. rewrite app_nil_r. repeat split; constructor.
  - apply Forall_cons in Hvalid as [He Hvalid].
    simpl in Hsum. pose proof (walkBytes_nonneg rest Hvalid) as Hrest.
    assert (Hnone : exists h,
      statusHistory w = statusHistory w ++ h ∧
      Forall (fun s => t <= Transferred s) h ∧
      StronglySorted Z.le (Transferred <$> h)).
    { exists []. rewrite app_nil_r. repeat split; constructor. }
    assert (Hstep : forall n zipErr' ops', 0 <= n <= we_copied e ->
      exists h,
        statusHistory (snd ((reportProgress (int64_add t n);;
                             walkDir rest zipErr' (int64_add t n) ops') w))
          = statusHistory w ++ h ∧
        Forall (fun s => t <= Transferred s) h ∧
        StronglySorted Z.le (Transferred <$> h)).
    { intros n zipErr' ops' Hn. rewrite bind_run.
      set (t' := int64_add t n).
      assert (Ht' : t' = t + n).
      { subst t'. unfold int64_add. apply wrap64_small. lia. }
      destruct (reportProgress_history t' w) as (Hh & Htr & _ & _).
      set (w2 := snd (reportProgress t' w)) in *.
      destruct (IH zipErr' t' ops' w2) as (h & Hh' & Hall & Hsorted); [done | lia | lia |].
      exists (status w2 :: h). split; [| split].
      + rewrite Hh', Hh. by rewrite <- app_assoc.
      + constructor; [lia |]. eapply Forall_impl; [exact Hall |]. simpl. intros; lia.
      + by apply (sorted_cons_lower t'). }
    simpl walkDir.
    destruct (we_walkErr e); [exact Hnone |].
    destruct (decide (we_relPath e = ".")); [apply IH; [done | lia | lia] |].
    destruct (we_isDir e); [apply IH; [done | lia | lia] |].
    destruct (we_openErr e); [exact Hnone |].
    destruct (createHeader zipErr e).
    + destruct (we_hasData e); [exact Hnone | apply Hstep; lia].
    + apply Hstep; lia.
Qed.

(** C7, as the code has it: in any one transfer (the chunk loop of a file
    download or of an upload, or the walk of a directory download) the
    status records written one after the other carry [Transferred] values
    that never decrease among themselves, as long as the bytes moved fit
    the int64 counter.  The first of them is not tied to the value the
    record held when the transfer began: the handlers do not reset
    [Transferred], and only when it is zero (or less) at the start is the
    whole trace, the starting value included, non-decreasing. *)
Theorem transferred_monotone (t : Transfer) (w : World) :
  countsValid t ->
  transferBytes t < 2 ^ 63 ->
  exists h,
    statusHistory (snd (runTransfer t w)) = statusHistory w ++ h ∧
    StronglySorted Z.le (Transferred <$> h) ∧
    (Transferred (status w) <= 0 ->
       StronglySorted Z.le (Transferred <$> (status w :: h))).
Proof.
  intros Hvalid Hbytes.
  assert (Hfrom : forall h,
    Forall (fun s => Z.min 0 (Transferred (status w)) <= Transferred s) h ->
    StronglySorted Z.le (Transferred <$> h) ->
    Transferred (status w) <= 0 ->
    StronglySorted Z.le (Transferred <$> (status w :: h))).
  { intros h Hall Hs Hzero.
    apply (sorted_cons_lower (Transferred (status w))); [| done | done].
    eapply Forall_impl; [exact Hall |]. simpl. intros; lia. }
  assert (Hweaken : forall h,
    Forall (fun s => 0 <= Transferred s) h ->
    Forall (fun s => Z.min 0 (Transferred (status w)) <= Transferred s) h).
  { intros h Hall. eapply Forall_impl; [exact Hall |]. simpl. intros; lia. }
  destruct t as [rs ws | rs ws savePath | entries];
    simpl in Hbytes; unfold runTransfer; rewrite bind_run; simpl snd.
  - destruct (downloadLoop_history rs ws 0 [] w (Z.min 0 (Transferred (status w))))
      as (h & Hh & Hall & Hs); [lia | lia | lia | lia |].
    exists h. split; [done |]. split; [done |]. by apply Hfrom.
  - destruct (uploadLoop_history rs ws savePath 0 w) as (h & Hh & Hall & Hs); [lia | lia |].
    exists h. split; [done |]. split; [done |]. apply Hfrom; [by apply Hweaken | done].
  - destruct (walkDir_history entries None 0 [] w) as (h & Hh & Hall & Hs);
      [done | lia | lia |].
    exists h. split; [done |]. split; [done |]. apply Hfrom; [by apply Hweaken | done].
Qed.

(** C7, as the sentence reads, fails on the second transfer of a session.
    After a download of the 5-byte file the record holds [Transferred] 5;
    the first chunk of the next download (3 bytes) writes 3 over it.  The
    values written over the two downloads: 0 at the start, 3 and 5 for the
    chunks and 5 at completion, then 5 at the second start, 3 and 5 for
    the chunks and 5 at completion. *)
Lemma transferred_drops_on_second_transfer :
  let d := OpDownload (GET "192.168.1.1:50001" "") (fileEnv []) in
  let w1 := runOps [d] sendServer in
  let w2 := snd (runTransfer (FileDownload (reads (fileEnv [])) []) w1) in
  Transferred (status w1) = 5 ∧
  Transferred <$> drop (length (statusHistory w1)) (statusHistory w2) = [3; 5] ∧
  Transferred <$> statusHistory (runOps [d; d] sendServer) = [0; 3; 5; 5; 5; 3; 5; 5].
Proof. vm_compute. done. Qed.

(** On a server that has moved nothing yet the whole trace is sorted. *)
Lemma transferred_monotone_witness :
  let t := FileUpload [mkRead (bytes "abc") None; mkRead (bytes "de") None;
                       mkRead [] (Some EOF)] [] "/srv/inbox/draft.txt" in
  exists h,
    statusHistory (snd (runTransfer t recvServer)) = statusHistory recvServer ++ h ∧
    StronglySorted Z.le (Transferred <$> h) ∧
    StronglySorted Z.le (Transferred <$> (status recvServer :: h)).
Proof.
  intros t.
  destruct (transferred_monotone t recvServer) as (h & Hh & Hs & Hfrom).
  - exact I.
  - reflexivity.
  - exists h. split; [exact Hh |]. split; [exact Hs |].
    apply Hfrom. vm_compute. discriminate.
Defined.

(** ** How the loops treat the phase and the error message *)

Lemma reportProgress_phase (t : Z) (w : World) :
  Status (status (snd (reportProgress t w))) = Status (status w) ∧
  Error (status (snd (reportProgress t w))) = Error (status w).
Proof. by destruct (reportProgress_history t w) as (_ & _ & He & Hs). Qed.

Lemma uploadLoop_phase (rs : list ReadResult) :
  forall ws savePath t w,
    Status (status (snd (uploadLoop rs ws savePath t w))) = Status (status w) ∧
    Error (status (snd (uploadLoop rs ws savePath t w))) = Error (status w).
Proof.
  induction rs as [| r rs IH]; intros ws savePath t w; [done |].
  simpl uploadLoop.
  destruct (0 <? length (rr_data r))%nat.
  - destruct (doWrite (rr_data r) ws) as [[werr written] ws'].
    rewrite !bind_run.
    set (w1 := snd (diskAppend savePath written w)).
    set (t' := int64_add t (Z.of_nat (length (rr_data r)))).
    destruct (reportProgress_phase t' w1) as [Hs He].
    destruct (rr_err r); [done |].
    destruct (IH ws' savePath t' (snd (reportProgress t' w1))) as [Hs' He'].
    assert (Hw1 : status w1 = status w) by done.
    rewrite Hw1 in Hs, He. split; congruence.
  - destruct (rr_err r); [done | apply IH].
Qed.

Lemma walkDir_phase (entries : list WalkEntry) :
  forall zipErr t ops w,
    Status (status (snd (walkDir entries zipErr t ops w))) = Status (status w) ∧
    Error (status (snd (walkDir entries zipErr t ops w))) = Error (status w).
Proof.
  induction entries as [| e rest IH]; intros zipErr t ops w; [done |].
  assert (Hstep : forall t' zipErr' ops',
    Status (status (snd ((reportProgress t';; walkDir rest zipErr' t' ops') w)))
      = Status (status w) ∧
    Error (status (snd ((reportProgress t';; walkDir rest zipErr' t' ops') w)))
      = Error (status w)).
  { intros t' zipErr' ops'. rewrite bind_run.
    destruct (reportProgress_phase t' w) as [Hs He].
    destruct (IH zipErr' t' ops' (snd (reportProgress t' w))) as [Hs' He'].
    split; congruence. }
  simpl walkDir.
  destruct (we_walkErr e); [done |].
  destruct (decide (we_relPath e = ".")); [apply IH |].
  destruct (we_isDir e); [apply IH |].
  destruct (we_openErr e); [done |].
  destruct (createHeader zipErr e); [| apply Hstep].
  destruct (we_hasData e); [done | apply Hstep].
Qed.

Lemma downloadLoop_phase (rs : list ReadResult) :
  forall ws t out w,
    let res := downloadLoop rs ws t out w in
    if fst (fst res)
    then Status (status (snd res)) = Status (status w) ∧
         Error (status (snd res)) = Error (status w)
    else Status (status (snd res)) = "error".
Proof.
  induction rs as [| r rs IH]; intros ws t out w; [done |].
  assert (Hafter : forall ws1 t1 out1 w1,
    let res := match rr_err r with
               | Some EOF => mret (true, out1)
               | Some (IOErr msg) => reportError msg;; mret (false, out1)
               | None => downloadLoop rs ws1 t1 out1
               end w1 in
    if fst (fst res)
    then Status (status (snd res)) = Status (status w1) ∧
         Error (status (snd res)) = Error (status w1)
    else Status (status (snd res)) = "error").
  { intros ws1 t1 out1 w1. destruct (rr_err r) as [[| msg] |]; [done | done | apply IH]. }
  simpl downloadLoop.
  destruct (0 <? length (rr_data r))%nat; [| apply Hafter].
  destruct (doWrite (rr_data r) ws) as [[werr sent] ws'].
  destruct werr as [msg |]; [done |].
  rewrite bind_run.
  set (t' := int64_add t (Z.of_nat (length (rr_data r)))).
  destruct (reportProgress_phase t' w) as [Hs He].
  pose proof (Hafter ws' t' (out ++ sent) (snd (reportProgress t' w))) as H.
  cbv zeta in H |- *.
  destruct (fst (fst _)); [| done].
  destruct H. split; congruence.
Qed.


(** ** Upload name conflict *)

Lemma formFile_multipart (env : UploadEnv) (part : FileHeader * list ReadResult) :
  formFile env = Some part -> bodyForm env = MultipartBody (Some part).
Proof. unfold formFile. destruct (bodyForm env); congruence. Qed.

(** A request that yields a file part has had its whole body read. *)
Lemma formFile_bodyRead (r : Request) (env : UploadEnv)
    (part : FileHeader * list ReadResult) :
  formFile env = Some part -> bodyRead r (bodyForm env) = Z.of_nat (length (Body r)).
Proof. intros Hform. by rewrite (formFile_multipart _ _ Hform). Qed.

(** [filepath.Join] on the receive directory: a trailing slash, a doubled
    slash and [.] or [..] elements do not reach the saved path. *)
Example Join_cleans :
  Join "/srv/inbox" "notes.txt" = "/srv/inbox/notes.txt" ∧
  Join "/srv/inbox/" "notes.txt" = "/srv/inbox/notes.txt" ∧
  Join "test_download/" "a.txt" = "test_download/a.txt" ∧
  Join "./inbox//" "a.txt" = "inbox/a.txt" ∧
  Join "." "a.txt" = "a.txt" ∧
  Join "/srv/inbox" "../a.txt" = "/srv/a.txt" ∧
  Join "" "a.txt" = "a.txt" ∧
  Join "" "" = "".
Proof. vm_compute. repeat split. Qed.

Example Clean_cases :
  Clean "" = "." ∧ Clean "abc//def//ghi" = "abc/def/ghi" ∧
  Clean "abc/def/../.." = "." ∧ Clean "/abc/def/../../.." = "/" ∧
  Clean "abc/def/../../.." = ".." ∧ Clean "../../abc" = "../../abc" ∧
  Clean "abc/./../def" = "def" ∧ Clean "/../abc" = "/abc" ∧ Clean "abc/" = "abc".
Proof. vm_compute. repeat split. Qed.

(** C4, as the code has it: an upload whose destination (the cleaned join
    of the receive directory and the part's file name) exists is answered
    409 with the structured body once the multipart request body has been
    read and parsed; the file part itself is never read (the answer does
    not depend on what the part, [os.Create] or [dst.Write] would yield),
    no file is created or changed, and the status record is not written. *)
Theorem upload_conflict_atomic (r : Request) (env : UploadEnv) (header : FileHeader)
    (file : list ReadResult) (w : World) :
  mode w = "recv" ->
  Method r = "POST" ->
  activeClient w = "" ∨ activeClient w = getClientIP r ->
  formFile env = Some (header, file) ->
  is_Some (disk w !! Join (path w) (Filename header)) ->
  let resp := fst (handleUpload r env w) in
  let w' := snd (handleUpload r env w) in
  code resp = 409 ∧
  contentType resp = "application/json" ∧
  body resp = conflictBody (Filename header) (Join (path w) (Filename header)) ∧
  netIn w' = netIn w + Z.of_nat (length (Body r)) ∧
  disk w' = disk w ∧
  status w' = status w ∧
  statusHistory w' = statusHistory w ∧
  (forall file' create writes,
     handleUpload r (mkUploadEnv (MultipartBody (Some (header, file'))) create writes) w
     = handleUpload r env w).
Proof.
  intros Hmode Hpost Hgate Hform Hexists.
  assert (Heval : forall env' file',
    formFile env' = Some (header, file') ->
    handleUpload r env' w
    = (mkResponse 409 "application/json"
         (conflictBody (Filename header) (Join (path w) (Filename header))) [] [],
       snd (addLog ("Client " +:+ getClientIP r +:+ " disconnected")
              (set_activeClient ""
                 (set_netIn (netIn w + Z.of_nat (length (Body r)))
                    (set_activeClient (getClientIP r) w)))))).
  { intros env' file' Hform'. unfold handleUpload. munfold. rewrite Hmode, Hpost.
    destruct (decide ("recv" ≠ "recv")); [done |].
    destruct (decide ("POST" ≠ "POST")); [done |].
    rewrite (acquireClient_admitted _ _ Hgate). simpl negb. cbv iota.
    unfold uploadAdmitted, ParseMultipartForm. munfold.
    rewrite (formFile_bodyRead r _ _ Hform'), Hform'. simpl.
    destruct (decide (is_Some (disk w !! Join (path w) (Filename header)))); [| done].
    rewrite releaseClient_holder by done.
    reflexivity. }
  rewrite (Heval env file Hform). simpl.
  repeat split.
  intros file' create writes. by rewrite (Heval _ file').
Qed.


(** C4, as the sentence reads, fails: the request body (11 bytes here) has been
    read before the 409 is sent. *)
Lemma upload_conflict_reads_body :
  let r := POST "192.168.1.1:50312" (bytes "new content") in
  let env := uploadEnv "notes.txt" 11 [mkRead (bytes "new content") None] [] in
  mode recvServer = "recv" ∧
  is_Some (disk recvServer !! Join (path recvServer) "notes.txt") ∧
  code (fst (handleUpload r env recvServer)) = 409 ∧
  netIn recvServer = 0 ∧
  netIn (snd (handleUpload r env recvServer)) = 11.
Proof. vm_compute. repeat split. by eexists. Qed.

(** The receive directory given with a trailing slash, as in
    [fileshare-server recv test_download/]: the conflict is found under
    the cleaned path, and that path is the one in the 409 body. *)
Lemma upload_conflict_atomic_witness :
  let r := POST "192.168.1.1:50312" (bytes "new content") in
  let env := uploadEnv "notes.txt" 11 [mkRead (bytes "new content") None] [] in
  path recvServerSlash = "/srv/inbox/" ∧
  code (fst (handleUpload r env recvServerSlash)) = 409 ∧
  body (fst (handleUpload r env recvServerSlash))
    = conflictBody "notes.txt" "/srv/inbox/notes.txt" ∧
  disk (snd (handleUpload r env recvServerSlash)) = disk recvServerSlash ∧
  status (snd (handleUpload r env recvServerSlash)) = status recvServerSlash.
Proof.
  intros r env.
  destruct (upload_conflict_atomic r env (mkFileHeader "notes.txt" 11)
              [mkRead (bytes "new content") None] recvServerSlash)
    as (Hcode & _ & Hbody & _ & Hdisk & Hstatus & _).
  - reflexivity.
  - reflexivity.
  - left. reflexivity.
  - reflexivity.
  - vm_compute. by eexists.
  - split; [reflexivity |]. split; [exact Hcode |]. split; [exact Hbody |].
    split; [exact Hdisk | exact Hstatus].
Defined.


(** ** Cancel *)

(** C5, as the code has it: a POST to the cancel endpoint always forces the
    phase to "cancelled" and answers 200 with that phase; the gate is
    released exactly when the caller's own identifier is the holder, and is
    left as it was for any other caller. *)
Theorem handleCancel_effect (r : Request) (w : World) :
  Method r = "POST" ->
  let resp := fst (handleCancel r w) in
  let w' := snd (handleCancel r w) in
  code resp = 200 ∧
  body resp = cancelBody ∧
  Status (status w') = "cancelled" ∧
  activeClient w' = (if decide (activeClient w = getClientIP r) then "" else activeClient w).
Proof.
  intros Hpost. unfold handleCancel. rewrite Hpost.
  destruct (decide ("POST" ≠ "POST")); [done |].
  unfold releaseClient. munfold.
  destruct (decide (activeClient w = getClientIP r)); done.
Qed.

Lemma handleCancel_effect_witness :
  let r := POST "192.168.1.1:40000" [] in
  Status (status (snd (handleCancel r sendServerHeld))) = "cancelled" ∧
  activeClient (snd (handleCancel r sendServerHeld)) = "".
Proof.
  intros r.
  destruct (handleCancel_effect r sendServerHeld) as (_ & _ & Hphase & Hgate);
    [reflexivity |].
  split; [exact Hphase | exact Hgate].
Defined.

(** C5, as the sentence reads, fails: while [peerA] holds the gate, a cancel
    sent by [peerB] is answered 200 and sets the phase, yet [peerA] remains
    the holder. *)
Lemma cancel_by_other_keeps_holder :
  let r := POST "192.168.1.2:40000" [] in
  activeClient sendServerHeld = peerA ∧
  code (fst (handleCancel r sendServerHeld)) = 200 ∧
  Status (status (snd (handleCancel r sendServerHeld))) = "cancelled" ∧
  activeClient (snd (handleCancel r sendServerHeld)) = peerA ∧
  activeClient (snd (handleCancel r sendServerHeld)) ≠ "".
Proof. vm_compute. repeat split. discriminate. Qed.



(** ** Range requests *)

Lemma downloadAdmitted_range (r : Request) (env : DownloadEnv) (info : FileInfo)
    (ip : string) (w : World) :
  Range r ≠ "" ->
  statResult env = Some info ->
  IsDir info = false ->
  openErr env = None ->
  fst (downloadAdmitted r env ip w)
  = mkResponse (fst (rangeReply env)) "application/octet-stream" ""
               (snd (rangeReply env)) [] ∧
  snd (downloadAdmitted r env ip w)
  = snd (addLog ("Download completed for " +:+ ip)
      (snd (reportCompleted
        (snd (addLog ("Started download from " +:+ ip)
          (snd (broadcastStatus (set_status (fun s =>
            upd_Size (fi_Size info) (upd_ClientIP ip (upd_Status "transferring" s)))
            w)))))))).
Proof.
  intros Hrange Hstat Hfile Hopen. unfold downloadAdmitted.
  rewrite Hstat, Hfile, Hopen.
  destruct (decide (Range r ≠ "")); [| done].
  cbv zeta. by run.
Qed.

(** C8, as the code has it: a file download carrying a Range header is
    answered by the range-aware server and never enters the chunk loop, and
    [Transferred] is left as it was; the handler still writes the status
    record twice, setting the phase to "transferring" before and to
    "completed" with progress 100 after the range has been served. *)
Theorem range_download_status (r : Request) (env : DownloadEnv) (info : FileInfo)
    (w : World) :
  mode w = "send" ->
  activeClient w = "" ∨ activeClient w = getClientIP r ->
  Range r ≠ "" ->
  statResult env = Some info ->
  IsDir info = false ->
  openErr env = None ->
  let resp := fst (handleDownload r env w) in
  let w' := snd (handleDownload r env w) in
  let started := upd_Size (fi_Size info)
                   (upd_ClientIP (getClientIP r) (upd_Status "transferring" (status w))) in
  let finished := upd_Progress 100%Q (upd_Status "completed" started) in
  (code resp, stream resp) = rangeReply env ∧
  (forall rs ws, handleDownload r (withScripts env rs ws) w = handleDownload r env w) ∧
  Transferred (status w') = Transferred (status w) ∧
  Status (status w') = "completed" ∧
  Progress (status w') = 100%Q ∧
  status w' = finished ∧
  statusHistory w' = statusHistory w ++ [started; finished].
Proof.
  intros Hmode Hgate Hrange Hstat Hfile Hopen. cbv zeta.
  pose proof (fun env' ip w1 Hs Ho =>
    downloadAdmitted_range r env' info ip w1 Hrange Hs Hfile Ho) as Hrun.
  split; [| split].
  - rewrite handleDownload_response by done.
    rewrite (proj1 (Hrun env _ _ Hstat Hopen)).
    cbn [code stream]. by destruct (rangeReply env).
  - intros rs ws. apply injective_projections.
    + rewrite !handleDownload_response by done.
      by rewrite (proj1 (Hrun env _ _ Hstat Hopen)),
                 (proj1 (Hrun (withScripts env rs ws) _ _ Hstat Hopen)).
    + rewrite !handleDownload_world by done.
      by rewrite (proj2 (Hrun env _ _ Hstat Hopen)),
                 (proj2 (Hrun (withScripts env rs ws) _ _ Hstat Hopen)).
  - rewrite handleDownload_world by done.
    rewrite (proj2 (Hrun env _ _ Hstat Hopen)).
    frame. rewrite <- app_assoc. done.
Qed.

Lemma range_download_status_witness :
  let r := GET "192.168.1.1:50001" "bytes=1-2" in
  Transferred (status (snd (handleDownload r (fileEnv []) sendServer))) = 0 ∧
  Status (status (snd (handleDownload r (fileEnv []) sendServer))) = "completed".
Proof.
  intros r.
  destruct (range_download_status r (fileEnv []) (mkFileInfo false 5) sendServer)
    as (_ & _ & Htr & Hphase & _).
  - reflexivity.
  - left. reflexivity.
  - discriminate.
  - reflexivity.
  - reflexivity.
  - reflexivity.
  - split; [exact Htr | exact Hphase].
Defined.

(** C8, as the sentence reads, fails: serving a range on a fresh session
    moves the phase from "waiting" to "completed" and the progress from 0 to
    100, while [Transferred] stays 0. *)
Lemma range_download_completes :
  let r := GET "192.168.1.1:50001" "bytes=1-2" in
  let w' := snd (handleDownload r (fileEnv []) sendServer) in
  fst (handleDownload r (fileEnv []) sendServer)
    = mkResponse 206 "application/octet-stream" "" (bytes "bc") [] ∧
  Status (status sendServer) = "waiting" ∧ Progress (status sendServer) = 0%Q ∧
  Status (status w') = "completed" ∧ Progress (status w') = 100%Q ∧
  Transferred (status w') = 0 ∧
  status w' ≠ status sendServer.
Proof. vm_compute. repeat split. discriminate. Qed.


(** ** The error message across a session *)

Lemma downloadAdmitted_error (r : Request) (env : DownloadEnv) (ip : string) (w : World) :
  let res := downloadAdmitted r env ip w in
  Error (status (snd res)) = Error (status w) ∨ Status (status (snd res)) = "error".
Proof.
  unfold downloadAdmitted. destruct (statResult env) as [info |]; [| by left].
  cbv zeta. rewrite !bind_run.
  set (w3 := snd (addLog _ _)).
  assert (He3 : Error (status w3) = Error (status w)) by done.
  clearbody w3.
  destruct (IsDir info).
  - left. rewrite bind_run.
    destruct (walkDir_phase (walk env) None 0 [] w3) as [_ He].
    destruct (walkDir (walk env) None 0 [] w3) as [[ended ops] w4].
    cbn [fst snd] in *. destruct ended.
    + rewrite !bind_run. cbn [fst snd mret M_ret]. rewrite <- He3, <- He. done.
    + cbn [fst snd mret M_ret]. by rewrite <- He3, <- He.
  - destruct (decide (Range r ≠ "")).
    + destruct (openErr env); [by left |]. left. rewrite !bind_run. by rewrite <- He3.
    + destruct (openErr env); [by left |]. rewrite bind_run.
      pose proof (downloadLoop_phase (reads env) (netWrites env) 0 [] w3) as Hloop.
      cbv zeta in Hloop.
      destruct (downloadLoop (reads env) (netWrites env) 0 [] w3) as [[ok out] w4].
      cbn [fst snd] in *. destruct ok.
      * left. destruct Hloop as [_ He]. rewrite !bind_run. rewrite <- He3, <- He. done.
      * by right.
Qed.

Lemma uploadAdmitted_error (r : Request) (env : UploadEnv) (ip : string) (w : World) :
  let res := uploadAdmitted r env ip w in
  Error (status (snd res)) = Error (status w) ∨ Status (status (snd res)) = "error".
Proof.
  unfold uploadAdmitted. rewrite bind_run.
  destruct (formFile env) as [[header file] |]; [| by left].
  rewrite !bind_run. unfold get. cbn [fst snd].
  destruct (decide (is_Some _)); [by left |].
  rewrite !bind_run.
  set (w3 := snd (addLog _ _)).
  assert (He3 : Error (status w3) = Error (status w)) by done.
  clearbody w3.
  destruct (createErr env) as [msg |]; [by right |].
  left. rewrite !bind_run.
  set (w4 := snd (modify _ w3)).
  assert (He4 : Error (status w4) = Error (status w3)) by done.
  destruct (uploadLoop_phase file (diskWrites env) (Join (path (snd (ParseMultipartForm r env w))) (Filename header)) 0 w4)
    as [_ He].
  cbn [fst snd mret M_ret]. rewrite <- He3, <- He4, <- He. done.
Qed.

Lemma acquireClient_status (p : string) (w : World) :
  status (snd (acquireClient p w)) = status w.
Proof.
  unfold acquireClient. munfold.
  destruct (decide _); [done |]. by destruct (decide _).
Qed.

Lemma handleDownload_error (r : Request) (env : DownloadEnv) (w : World) :
  let w' := snd (handleDownload r env w) in
  Error (status w') = Error (status w) ∨ Status (status w') = "error".
Proof.
  cbv zeta. unfold handleDownload. run.
  destruct (decide (mode w ≠ "send")); [by left |]. run.
  pose proof (acquireClient_status (getClientIP r) w) as Hw1.
  destruct (acquireClient (getClientIP r) w) as [ok w1]. cbn [fst snd negb] in *.
  destruct ok; cbn [negb]; run; [| left; by rewrite Hw1]. frame.
  destruct (downloadAdmitted_error r env (getClientIP r)
              (snd (addLog ("Client " +:+ getClientIP r +:+ " connected") w1)))
    as [Hsame | Herr]; [left | by right].
  rewrite Hsame. frame. by rewrite Hw1.
Qed.

Lemma handleUpload_error (r : Request) (env : UploadEnv) (w : World) :
  let w' := snd (handleUpload r env w) in
  Error (status w') = Error (status w) ∨ Status (status w') = "error".
Proof.
  cbv zeta. unfold handleUpload. run.
  destruct (decide (mode w ≠ "recv")); [by left |].
  destruct (decide (Method r ≠ "POST")); [by left |]. run.
  pose proof (acquireClient_status (getClientIP r) w) as Hw1.
  destruct (acquireClient (getClientIP r) w) as [ok w1]. cbn [fst snd negb] in *.
  destruct ok; cbn [negb]; run; [| left; by rewrite Hw1]. frame.
  destruct (uploadAdmitted_error r env (getClientIP r) w1) as [Hsame | Herr];
    [left | by right].
  rewrite Hsame. by rewrite Hw1.
Qed.

Lemma handleCancel_error (r : Request) (w : World) :
  Error (status (snd (handleCancel r w))) = Error (status w).
Proof.
  unfold handleCancel. destruct (decide (Method r ≠ "POST")); [done |].
  run. by frame.
Qed.

(** C9, as the code has it: the error message is only ever written together
    with the phase "error": a download, upload or cancel request that
    changes [Error] leaves the phase at "error".  Nothing clears the
    message: a cancel request leaves it exactly as it was. *)
Theorem lastError_written_with_error_phase (op : Op) (w : World) :
  let w' := snd (runOp op w) in
  (Error (status w') ≠ Error (status w) -> Status (status w') = "error") ∧
  (forall r, op = OpCancel r -> Error (status w') = Error (status w)).
Proof.
  cbv zeta. split; [| intros r ->; apply handleCancel_error].
  intros Hchanged. destruct op as [r env | r env | r]; cbn [runOp] in *.
  - by destruct (handleDownload_error r env w).
  - by destruct (handleUpload_error r env w).
  - by rewrite handleCancel_error in Hchanged.
Qed.

Lemma lastError_written_with_error_phase_witness :
  let failing := OpDownload (GET "192.168.1.1:50001" "")
                   (fileEnv [None; Some (1%nat, "write: broken pipe")]) in
  Error (status (snd (runOp failing sendServer))) = "write: broken pipe" ∧
  Status (status (snd (runOp failing sendServer))) = "error".
Proof.
  intros failing.
  destruct (lastError_written_with_error_phase failing sendServer) as (Hphase & _).
  split; [by vm_compute |].
  apply Hphase. by vm_compute.
Defined.

(** C9, as the sentence reads, fails: a download whose second write fails
    leaves the message of that failure in the status record, and the cancel
    request that follows changes the phase but not the message. *)
Lemma lastError_survives_cancel :
  let failing := OpDownload (GET "192.168.1.1:50001" "")
                   (fileEnv [None; Some (1%nat, "write: broken pipe")]) in
  let cancel := OpCancel (POST "192.168.1.1:50002" []) in
  Status (status (runOps [failing] sendServer)) = "error" ∧
  Error (status (runOps [failing; cancel] sendServer)) = "write: broken pipe" ∧
  Status (status (runOps [failing; cancel] sendServer)) = "cancelled".
Proof. vm_compute. done. Qed.

(** ** Failures the transfer loops do not report *)



(** C2 at a failing input: the part's second [Read] fails after three of
    six bytes.  The loop stops and the three bytes stay on disk, but the
    phase becomes "completed", no message is recorded and the peer gets a
    200. *)
Theorem upload_read_error_reports_completed :
  let r := POST "192.168.1.1:50312" (bytes "abcdef") in
  let env := uploadEnv "draft.txt" 6
               [mkRead (bytes "abc") None; mkRead [] (Some (IOErr "unexpected EOF"))] [] in
  let res := handleUpload r env recvServer in
  code (fst res) = 200 ∧
  disk (snd res) !! "/srv/inbox/draft.txt" = Some (bytes "abc") ∧
  Transferred (status (snd res)) = 3 ∧
  Status (status (snd res)) = "completed" ∧
  Error (status (snd res)) = "".
Proof. vm_compute. done. Qed.

(** The same for a failing [dst.Write]: the second write accepts one byte
    and fails; the loop goes on counting, and the phase is "completed"
    with six bytes reported and four on disk. *)
Example upload_write_error_reports_completed :
  let r := POST "192.168.1.1:50312" (bytes "abcdef") in
  let env := uploadEnv "draft.txt" 6
               [mkRead (bytes "abc") None; mkRead (bytes "def") None; mkRead [] (Some EOF)]
               [None; Some (1%nat, "no space left on device")] in
  let res := handleUpload r env recvServer in
  code (fst res) = 200 ∧
  disk (snd res) !! "/srv/inbox/draft.txt" = Some (bytes "abcd") ∧
  Transferred (status (snd res)) = 6 ∧
  Status (status (snd res)) = "completed" ∧
  Error (status (snd res)) = "".
Proof. vm_compute. done. Qed.

(** ** Directory downloads: the archive and the panic *)

Lemma walkDir_end (entries : list WalkEntry) :
  forall zipErr t ops w,
    fst (fst (walkDir entries zipErr t ops w))
    = if walkPanics entries zipErr then WalkPanicked else WalkReturned.
Proof.
  induction entries as [| e rest IH]; intros zipErr t ops w; [done |].
  simpl walkDir. simpl walkPanics.
  destruct (we_walkErr e); [done |].
  destruct (decide (we_relPath e = ".")); [apply IH |].
  destruct (we_isDir e); [apply IH |].
  destruct (we_openErr e); [done |].
  destruct (createHeader zipErr e).
  - destruct (we_hasData e); [done |]. rewrite bind_run. apply IH.
  - rewrite bind_run. apply IH.
Qed.

Lemma walkPanics_intact (entries : list WalkEntry) :
  writesIntact entries -> walkPanics entries None = false.
Proof.
  induction 1 as [| e rest [Hheader Hcopy] _ IH]; [done |].
  simpl. rewrite Hheader, Hcopy.
  destruct (we_walkErr e); [done |].
  destruct (decide (we_relPath e = ".")); [done |].
  destruct (we_isDir e); [done |].
  by destruct (we_openErr e).
Qed.

Lemma downloadAdmitted_dir (r : Request) (env : DownloadEnv) (info : FileInfo)
    (ip : string) (w : World) :
  statResult env = Some info ->
  IsDir info = true ->
  let res := downloadAdmitted r env ip w in
  last (archive (fst res)) = Some ZipClose ∧
  Error (status (snd res)) = Error (status w) ∧
  if walkPanics (walk env) None
  then code (fst res) = 0 ∧ Status (status (snd res)) = "transferring"
  else code (fst res) = 200 ∧ Status (status (snd res)) = "completed".
Proof.
  intros Hstat Hdir. cbv zeta. unfold downloadAdmitted.
  rewrite Hstat, Hdir. cbv zeta. rewrite !bind_run.
  set (w3 := snd (addLog _ _)).
  assert (He3 : Error (status w3) = Error (status w)) by done.
  assert (Hs3 : Status (status w3) = "transferring") by done.
  clearbody w3.
  pose proof (walkDir_end (walk env) None 0 [] w3) as Hend.
  destruct (walkDir_phase (walk env) None 0 [] w3) as [Hs He].
  destruct (walkDir (walk env) None 0 [] w3) as [[ended ops] w4].
  cbn [fst snd] in *. rewrite Hs3 in Hs. rewrite He3 in He.
  destruct (walkPanics (walk env) None); subst ended.
  - cbn [fst snd mret M_ret archive code].
    split; [apply last_snoc |]. by split.
  - run. cbn [code archive]. frame.
    split; [apply last_snoc |]. by split.
Qed.

(** C3 at two failing inputs, the peer going away while [a.bin] is copied
    into the archive.  When [a.bin] is the last file the walk ends, the
    archive is closed, the phase becomes "completed" and no message is
    recorded.  When [b.bin] follows, [CreateHeader] returns no writer and
    the copy of [b.bin] panics: the handler is left with the phase at
    "transferring", again without a message. *)
Theorem dir_download_write_failure_unreported :
  let r := GET "192.168.1.1:50001" "" in
  let ended := handleDownload r dirEnvLast sendDirServer in
  let panicked := handleDownload r dirEnvBroken sendDirServer in
  archive (fst ended)
    = [ZipCreateHeader "a.bin" None;
       ZipCopy 65536 (Some (CopyWriteErr "write: broken pipe")); ZipClose] ∧
  code (fst ended) = 200 ∧
  Transferred (status (snd ended)) = 65536 ∧
  Status (status (snd ended)) = "completed" ∧
  Error (status (snd ended)) = "" ∧
  archive (fst panicked)
    = [ZipCreateHeader "a.bin" None;
       ZipCopy 65536 (Some (CopyWriteErr "write: broken pipe"));
       ZipCreateHeader "b.bin" (Some "write: broken pipe"); ZipClose] ∧
  code (fst panicked) = 0 ∧
  Transferred (status (snd panicked)) = 65536 ∧
  Status (status (snd panicked)) = "transferring" ∧
  Error (status (snd panicked)) = "" ∧
  activeClient (snd panicked) = "".
Proof. vm_compute. done. Qed.


(** * Further properties *)

(** ** What survives every operation *)

(** The handlers change the world only through a handful of updates; a
    predicate kept by those is kept by the loops, by the handlers and by
    whole sessions. *)
Section Preservation.

Variable P : World -> Prop.

Hypothesis P_status : forall f w, P w -> P (set_status f w).
Hypothesis P_ticks : forall n w, P w -> P (set_ticks n w).
Hypothesis P_send :
  forall d w, P w -> P (set_sseClients (trySend d <$> sseClients w) w).
Hypothesis P_log :
  forall e w, P w -> P (set_transferLog (appendLog (transferLog w) e) w).
Hypothesis P_disk : forall d w, P w -> P (set_disk d w).
Hypothesis P_netIn : forall n w, P w -> P (set_netIn n w).
Hypothesis P_active : forall c w, P w -> P (set_activeClient c w).

Lemma broadcastStatus_keeps (w : World) : P w -> P (snd (broadcastStatus w)).
Proof. intros H. unfold broadcastStatus. run. by apply P_send. Qed.

Lemma addLog_keeps (message : string) (w : World) :
  P w -> P (snd (addLog message w)).
Proof.
  intros H. unfold addLog, timeNow. run.
  apply broadcastStatus_keeps, P_log. by apply P_ticks.
Qed.

Lemma reportProgress_keeps (t : Z) (w : World) :
  P w -> P (snd (reportProgress t w)).
Proof.
  intros H. unfold reportProgress, timeNow. run.
  apply broadcastStatus_keeps, P_status. by apply P_ticks.
Qed.

Lemma reportError_keeps (msg : string) (w : World) :
  P w -> P (snd (reportError msg w)).
Proof.
  intros H. unfold reportError. run. by apply broadcastStatus_keeps, P_status.
Qed.

Lemma reportCompleted_keeps (w : World) : P w -> P (snd (reportCompleted w)).
Proof.
  intros H. unfold reportCompleted. run. by apply broadcastStatus_keeps, P_status.
Qed.

Lemma downloadLoop_keeps (rs : list ReadResult) :
  forall ws t out w, P w -> P (snd (downloadLoop rs ws t out w)).
Proof.
  induction rs as [| r rs IH]; intros ws t out w H; [done |].
  assert (Hafter : forall ws1 t1 out1 w1, P w1 ->
    P (snd (match rr_err r with
            | Some EOF => mret (true, out1)
            | Some (IOErr msg) => reportError msg;; mret (false, out1)
            | None => downloadLoop rs ws1 t1 out1
            end w1))).
  { intros ws1 t1 out1 w1 H1. destruct (rr_err r) as [[| msg] |].
    - done.
    - run. by apply reportError_keeps.
    - by apply IH. }
  simpl downloadLoop.
  destruct (0 <? length (rr_data r))%nat; [| by apply Hafter].
  destruct (doWrite (rr_data r) ws) as [[werr sent] ws'].
  destruct werr as [msg |].
  - run. by apply reportError_keeps.
  - rewrite bind_run. by apply Hafter, reportProgress_keeps.
Qed.

Lemma walkDir_keeps (entries : list WalkEntry) :
  forall zipErr t ops w, P w -> P (snd (walkDir entries zipErr t ops w)).
Proof.
  induction entries as [| e rest IH]; intros zipErr t ops w H; [done |].
  simpl walkDir.
  destruct (we_walkErr e); [done |].
  destruct (decide (we_relPath e = ".")); [by apply IH |].
  destruct (we_isDir e); [by apply IH |].
  destruct (we_openErr e); [done |].
  destruct (createHeader zipErr e).
  - destruct (we_hasData e); [done |].
    rewrite bind_run. by apply IH, reportProgress_keeps.
  - rewrite bind_run. by apply IH, reportProgress_keeps.
Qed.

Lemma downloadAdmitted_keeps (r : Request) (env : DownloadEnv) (ip : string) (w : World) :
  P w -> P (snd (downloadAdmitted r env ip w)).
Proof.
  intros H. unfold downloadAdmitted.
  destruct (statResult env) as [info |]; [| done].
  cbv zeta. rewrite !bind_run. rewrite modify_run. cbn [fst snd].
  set (w3 := snd (addLog _ _)).
  assert (H3 : P w3) by (by apply addLog_keeps, broadcastStatus_keeps, P_status).
  clearbody w3.
  assert (Hfinish : forall resp w4, P w4 ->
    P (snd ((reportCompleted;;
             addLog ("Download completed for " +:+ ip);;
             (mret resp : M Response)) w4))).
  { intros resp w4 H4. run. by apply addLog_keeps, reportCompleted_keeps. }
  destruct (IsDir info).
  - rewrite bind_run.
    pose proof (walkDir_keeps (walk env) None 0 [] w3 H3) as Hw.
    destruct (walkDir (walk env) None 0 [] w3) as [[ended ops] w4].
    cbn [fst snd] in *. destruct ended; [| done].
    rewrite bind_run, mret_run. cbn [snd]. by apply Hfinish.
  - destruct (decide (Range r ≠ "")).
    + destruct (openErr env); [done |]. by apply Hfinish.
    + destruct (openErr env); [done |]. rewrite bind_run.
      pose proof (downloadLoop_keeps (reads env) (netWrites env) 0 [] w3 H3) as Hl.
      destruct (downloadLoop (reads env) (netWrites env) 0 [] w3) as [[ok out] w4].
      cbn [fst snd] in *. destruct ok; [by apply Hfinish | done].
Qed.

Lemma acquireClient_keeps (c : string) (w : World) :
  P w -> P (snd (acquireClient c w)).
Proof.
  intros H. unfold acquireClient. run.
  destruct (decide _); [done |]. run.
  destruct (decide _); run; [by apply P_active | done].
Qed.

Lemma releaseClient_keeps (c : string) (w : World) :
  P w -> P (snd (releaseClient c w)).
Proof.
  intros H. unfold releaseClient. run.
  destruct (decide _); run; [| done].
  by apply addLog_keeps, P_active.
Qed.

Lemma handleDownload_keeps (r : Request) (env : DownloadEnv) (w : World) :
  P w -> P (snd (handleDownload r env w)).
Proof.
  intros H. unfold handleDownload. run.
  destruct (decide (mode w ≠ "send")); [done |]. run.
  pose proof (acquireClient_keeps (getClientIP r) w H) as H1.
  destruct (acquireClient (getClientIP r) w) as [ok w1]. cbn [fst snd] in *.
  destruct ok; cbn [negb]; run; [| done].
  by apply releaseClient_keeps, downloadAdmitted_keeps, addLog_keeps.
Qed.

Lemma handleCancel_keeps (r : Request) (w : World) :
  P w -> P (snd (handleCancel r w)).
Proof.
  intros H. unfold handleCancel.
  destruct (decide (Method r ≠ "POST")); [done |]. run.
  by apply addLog_keeps, broadcastStatus_keeps, P_status, releaseClient_keeps.
Qed.

Lemma uploadLoop_keeps (rs : list ReadResult) :
  forall ws savePath t w, P w -> P (snd (uploadLoop rs ws savePath t w)).
Proof.
  induction rs as [| r rs IH]; intros ws savePath t w H; [done |].
  simpl uploadLoop.
  destruct (0 <? length (rr_data r))%nat.
  - destruct (doWrite (rr_data r) ws) as [[werr written] ws'].
    rewrite !bind_run.
    assert (H2 : P (snd (reportProgress
                           (int64_add t (Z.of_nat (length (rr_data r))))
                           (snd (diskAppend savePath written w))))).
    { apply reportProgress_keeps. unfold diskAppend. run. by apply P_disk. }
    destruct (rr_err r); [done | by apply IH].
  - destruct (rr_err r); [done | by apply IH].
Qed.

Lemma uploadAdmitted_keeps (r : Request) (env : UploadEnv) (ip : string) (w : World) :
  P w -> P (snd (uploadAdmitted r env ip w)).
Proof.
  intros H. unfold uploadAdmitted. rewrite bind_run.
  assert (H1 : P (snd (ParseMultipartForm r env w))).
  { unfold ParseMultipartForm. run. by apply P_netIn. }
  set (w1 := snd (ParseMultipartForm r env w)) in *. clearbody w1.
  destruct (formFile env) as [[header file] |]; [| done].
  run. destruct (decide (is_Some _)); [done |].
  run.
  set (w3 := snd (addLog _ _)).
  assert (H3 : P w3) by (by apply addLog_keeps, broadcastStatus_keeps, P_status).
  clearbody w3.
  destruct (createErr env) as [msg |].
  - run. by apply reportError_keeps.
  - run. apply addLog_keeps, reportCompleted_keeps, uploadLoop_keeps. by apply P_disk.
Qed.

Lemma handleUpload_keeps (r : Request) (env : UploadEnv) (w : World) :
  P w -> P (snd (handleUpload r env w)).
Proof.
  intros H. unfold handleUpload. run.
  destruct (decide (mode w ≠ "recv")); [done |].
  destruct (decide (Method r ≠ "POST")); [done |]. run.
  pose proof (acquireClient_keeps (getClientIP r) w H) as H1.
  destruct (acquireClient (getClientIP r) w) as [ok w1]. cbn [fst snd] in *.
  destruct ok; cbn [negb]; run; [| done].
  by apply releaseClient_keeps, uploadAdmitted_keeps.
Qed.

Lemma runOp_keeps (op : Op) (w : World) : P w -> P (snd (runOp op w)).
Proof.
  destruct op; cbn [runOp];
    [apply handleDownload_keeps | apply handleUpload_keeps | apply handleCancel_keeps].
Qed.

Lemma runOps_keeps (ops : list Op) (w : World) : P w -> P (runOps ops w).
Proof.
  revert w. induction ops as [| op ops IH]; intros w H; [done |].
  apply IH. by apply runOp_keeps.
Qed.

End Preservation.

(** ** Session invariants *)

Lemma trySend_bounded (d : Snapshot) (buf : list Snapshot) :
  (length buf <= chanCap)%nat -> (length (trySend d buf) <= chanCap)%nat.
Proof.
  intros Hlen. unfold trySend.
  destruct (Nat.ltb_spec (length buf) chanCap) as [Hlt | _]; [| done].
  rewrite length_app. simpl. lia.
Qed.

(** X1: over any sequence of download, upload and cancel requests the
    transfer log stays within 100 entries, every subscriber's channel
    stays within its capacity of 10, the set of subscribers is not
    touched, and the configured mode and path never change. *)
Theorem session_invariants (ops : list Op) (w : World) :
  (length (transferLog w) <= 100)%nat ->
  buffersBounded w ->
  let w' := runOps ops w in
  (length (transferLog w') <= 100)%nat ∧
  buffersBounded w' ∧
  dom (sseClients w') = dom (sseClients w) ∧
  mode w' = mode w ∧ path w' = path w.
Proof.
  intros Hlog Hbuf. cbv zeta.
  apply (runOps_keeps (fun w' =>
    (length (transferLog w') <= 100)%nat ∧ buffersBounded w' ∧
    dom (sseClients w') = dom (sseClients w) ∧
    mode w' = mode w ∧ path w' = path w)); try done.
  - intros d w1 (H1 & H2 & H3 & H4 & H5). repeat split; try done.
    + unfold buffersBounded in *. cbn [sseClients set_sseClients].
      apply map_Forall_fmap. eapply map_Forall_impl; [exact H2 |].
      intros ch buf Hb. by apply trySend_bounded.
    + cbn [sseClients set_sseClients]. by rewrite dom_fmap_L.
  - intros e w1 (H1 & H2 & H3 & H4 & H5). repeat split; try done.
    apply appendLog_length.
Qed.

Lemma session_invariants_witness :
  let w := snd (sseRegister 7 sendServer) in
  let ops := [OpDownload (GET "192.168.1.1:50001" "") (fileEnv []);
              OpCancel (POST "192.168.1.2:50002" [])] in
  (length (transferLog (runOps ops w)) <= 100)%nat ∧
  buffersBounded (runOps ops w) ∧
  dom (sseClients (runOps ops w)) = {[ 7%nat ]}.
Proof.
  intros w ops.
  destruct (session_invariants ops w) as (Hlog & Hbuf & Hdom & _).
  - simpl. lia.
  - change (map_Forall (fun _ (buf : list Snapshot) => (length buf <= chanCap)%nat)
                       (<[7%nat := []]> (∅ : gmap nat (list Snapshot)))).
    apply map_Forall_insert_2; [unfold chanCap; simpl; lia | apply map_Forall_empty].
  - split; [exact Hlog |]. split; [exact Hbuf |].
    rewrite Hdom. apply dom_singleton_L.
Defined.

(** X2: a download request and a cancel request never create or change a
    file and never read a request body, whatever the scripts answer. *)
Theorem download_and_cancel_leave_disk (r : Request) (env : DownloadEnv) (w : World) :
  disk (snd (handleDownload r env w)) = disk w ∧
  netIn (snd (handleDownload r env w)) = netIn w ∧
  disk (snd (handleCancel r w)) = disk w ∧
  netIn (snd (handleCancel r w)) = netIn w.
Proof.
  assert (Hd : disk (snd (handleDownload r env w)) = disk w ∧
               netIn (snd (handleDownload r env w)) = netIn w).
  { by apply (handleDownload_keeps (fun w' => disk w' = disk w ∧ netIn w' = netIn w)). }
  assert (Hc : disk (snd (handleCancel r w)) = disk w ∧
               netIn (snd (handleCancel r w)) = netIn w).
  { by apply (handleCancel_keeps (fun w' => disk w' = disk w ∧ netIn w' = netIn w)). }
  destruct Hd, Hc. done.
Qed.

(** ** The gate around a request *)

(** X3: a request that the handler refuses at its first lines changes
    nothing at all: a download in another mode than "send" and an upload
    in another mode than "recv" get 400, an upload or a cancel that is not
    a POST gets 405. *)
Theorem refused_requests_change_nothing (r : Request) (denv : DownloadEnv)
    (uenv : UploadEnv) (w : World) :
  (mode w ≠ "send" ->
     handleDownload r denv w = (httpError "Server is not in send mode" 400, w)) ∧
  (mode w ≠ "recv" ->
     handleUpload r uenv w = (httpError "Server is not in receive mode" 400, w)) ∧
  (mode w = "recv" -> Method r ≠ "POST" ->
     handleUpload r uenv w = (httpError "Method not allowed" 405, w)) ∧
  (Method r ≠ "POST" ->
     handleCancel r w = (httpError "Method not allowed" 405, w)).
Proof.
  split; [| split; [| split]].
  - intros Hmode. unfold handleDownload. run. by destruct (decide (mode w ≠ "send")).
  - intros Hmode. unfold handleUpload. run. by destruct (decide (mode w ≠ "recv")).
  - intros Hmode Hmethod. unfold handleUpload. run.
    destruct (decide (mode w ≠ "recv")); [done |].
    by destruct (decide (Method r ≠ "POST")).
  - intros Hmethod. unfold handleCancel. by destruct (decide (Method r ≠ "POST")).
Qed.

Lemma refused_requests_change_nothing_witness :
  handleDownload (GET "192.168.1.1:50001" "") (fileEnv []) recvServer
    = (httpError "Server is not in send mode" 400, recvServer) ∧
  handleCancel (GET "192.168.1.1:50001" "") sendServerHeld
    = (httpError "Method not allowed" 405, sendServerHeld).
Proof.
  destruct (refused_requests_change_nothing (GET "192.168.1.1:50001" "") (fileEnv [])
              (uploadEnv "x" 0 [] []) recvServer) as (Hd & _).
  destruct (refused_requests_change_nothing (GET "192.168.1.1:50001" "") (fileEnv [])
              (uploadEnv "x" 0 [] []) sendServerHeld) as (_ & _ & _ & Hc).
  split; [apply Hd | apply Hc]; discriminate.
Defined.

Lemma downloadAdmitted_active (r : Request) (env : DownloadEnv) (ip : string) (w : World) :
  activeClient (snd (downloadAdmitted r env ip w)) = activeClient w.
Proof. by apply (downloadAdmitted_keeps (fun w' => activeClient w' = activeClient w)). Qed.

Lemma uploadAdmitted_active (r : Request) (env : UploadEnv) (ip : string) (w : World) :
  activeClient (snd (uploadAdmitted r env ip w)) = activeClient w.
Proof. by apply (uploadAdmitted_keeps (fun w' => activeClient w' = activeClient w)). Qed.

Lemma handleDownload_frees_gate (r : Request) (env : DownloadEnv) (w : World) :
  mode w = "send" ->
  activeClient w = "" ∨ activeClient w = getClientIP r ->
  activeClient (snd (handleDownload r env w)) = "".
Proof.
  intros Hmode Hgate. rewrite handleDownload_world by done.
  rewrite releaseClient_active, downloadAdmitted_active. frame.
  by destruct (decide _).
Qed.

Lemma handleUpload_frees_gate (r : Request) (env : UploadEnv) (w : World) :
  mode w = "recv" ->
  Method r = "POST" ->
  activeClient w = "" ∨ activeClient w = getClientIP r ->
  activeClient (snd (handleUpload r env w)) = "".
Proof.
  intros Hmode Hpost Hgate. rewrite handleUpload_world by done.
  rewrite releaseClient_active, uploadAdmitted_active. frame.
  by destruct (decide _).
Qed.

(** X4: a download or upload that passes the gate always leaves the gate
    free when the handler returns, by whatever path it returns, also when
    the peer was already the holder on entry (a second connection of the
    same peer frees the slot of the first). *)
Theorem admitted_request_frees_gate (r : Request) (denv : DownloadEnv)
    (uenv : UploadEnv) (w : World) :
  activeClient w = "" ∨ activeClient w = getClientIP r ->
  (mode w = "send" -> activeClient (snd (handleDownload r denv w)) = "") ∧
  (mode w = "recv" -> Method r = "POST" ->
     activeClient (snd (handleUpload r uenv w)) = "").
Proof.
  intros Hgate. split.
  - intros Hmode. by apply handleDownload_frees_gate.
  - intros Hmode Hpost. by apply handleUpload_frees_gate.
Qed.

Lemma admitted_request_frees_gate_witness :
  activeClient (snd (handleDownload (GET "192.168.1.1:50009" "") (fileEnv [])
                       sendServerHeld)) = "".
Proof.
  apply (admitted_request_frees_gate (GET "192.168.1.1:50009" "") (fileEnv [])
           (uploadEnv "x" 0 [] []) sendServerHeld).
  - right. reflexivity.
  - reflexivity.
Defined.

(** X5: acquire and release as the unit test uses them: once a peer with a
    non-empty identifier has taken the free gate, a release by anybody else
    does nothing, and its own release frees the gate, logs the
    disconnection as the newest entry and lets any peer in. *)
Theorem acquire_release_round_trip (p q : string) (w : World) :
  activeClient w = "" ->
  p ≠ "" ->
  let w1 := snd (acquireClient p w) in
  let w2 := snd (releaseClient p w1) in
  (q ≠ p -> releaseClient q w1 = (tt, w1)) ∧
  activeClient w2 = "" ∧
  transferLog w2
    = appendLog (transferLog w)
        (logEntryOf (wallClock w (ticks w)) ("Client " +:+ p +:+ " disconnected")) ∧
  status w2 = status w ∧
  acquireClient q w2 = (true, set_activeClient q w2).
Proof.
  intros Hfree Hp. cbv zeta.
  rewrite (acquireClient_free p w Hfree). cbn [snd].
  split; [| split; [| split; [| split]]].
  - intros Hq. unfold releaseClient. run. frame.
    destruct (decide (p = q)); [congruence | done].
  - rewrite releaseClient_active. frame. by destruct (decide (p = p)).
  - by rewrite releaseClient_holder.
  - by frame.
  - apply acquireClient_free. rewrite releaseClient_active. frame.
    by destruct (decide (p = p)).
Qed.

Lemma acquire_release_round_trip_witness :
  let w1 := snd (acquireClient peerA sendServer) in
  let w2 := snd (releaseClient peerA w1) in
  releaseClient peerB w1 = (tt, w1) ∧
  fst (acquireClient peerB w2) = true.
Proof.
  intros w1 w2.
  destruct (acquire_release_round_trip peerA peerB sendServer)
    as (Hother & _ & _ & _ & Hnext); [reflexivity | discriminate |].
  split; [apply Hother; discriminate |].
  change (fst (acquireClient peerB w2) = true). unfold w2, w1. by rewrite Hnext.
Defined.

(** ** A plain file download, end to end *)

Lemma doWrite_accepted (data : list Byte.byte) (ws : list WriteOutcome) :
  allAccepted ws ->
  exists ws', doWrite data ws = (None, data, ws') ∧ allAccepted ws'.
Proof.
  intros Hws. destruct ws as [| o ws]; [by exists [] |].
  apply Forall_cons in Hws as [-> Hws]. by exists ws.
Qed.

Lemma reportProgress_fields (t : Z) (w : World) :
  let s := status (snd (reportProgress t w)) in
  Transferred s = t ∧ Size s = Size (status w) ∧ ClientIP s = ClientIP (status w) ∧
  Status s = Status (status w) ∧ Error s = Error (status w).
Proof.
  unfold reportProgress, timeNow, broadcastStatus. munfold. simpl.
  by destruct (0 <? Size (status w)).
Qed.

Lemma downloadLoop_fields (rs : list ReadResult) :
  forall ws t out w,
    let s := status (snd (downloadLoop rs ws t out w)) in
    Size s = Size (status w) ∧ ClientIP s = ClientIP (status w).
Proof.
  induction rs as [| r rs IH]; intros ws t out w; [done |].
  assert (Hafter : forall ws1 t1 out1 w1,
    let s := status (snd (match rr_err r with
                          | Some EOF => mret (true, out1)
                          | Some (IOErr msg) => reportError msg;; mret (false, out1)
                          | None => downloadLoop rs ws1 t1 out1
                          end w1)) in
    Size s = Size (status w1) ∧ ClientIP s = ClientIP (status w1)).
  { intros ws1 t1 out1 w1. destruct (rr_err r) as [[| msg] |]; [done | | apply IH].
    run. by frame. }
  simpl downloadLoop.
  destruct (0 <? length (rr_data r))%nat; [| apply Hafter].
  destruct (doWrite (rr_data r) ws) as [[werr sent] ws'].
  destruct werr as [msg |]; [run; by frame |].
  rewrite bind_run.
  destruct (reportProgress_fields (int64_add t (Z.of_nat (length (rr_data r)))) w)
    as (_ & Hsize & Hip & _).
  destruct (Hafter ws' (int64_add t (Z.of_nat (length (rr_data r)))) (out ++ sent)
              (snd (reportProgress (int64_add t (Z.of_nat (length (rr_data r)))) w)))
    as [Hs Hc].
  cbv zeta in *. split; congruence.
Qed.

Lemma downloadLoop_clean (rs : list ReadResult) :
  forall ws t out w,
    allAccepted ws ->
    firstErr rs = EOF ->
    0 <= t ->
    t + Z.of_nat (length (readUntilErr rs)) < 2 ^ 63 ->
    let res := downloadLoop rs ws t out w in
    fst res = (true, out ++ readUntilErr rs) ∧
    (readUntilErr rs = [] -> status (snd res) = status w) ∧
    (readUntilErr rs ≠ [] ->
       Transferred (status (snd res)) = t + Z.of_nat (length (readUntilErr rs))).
Proof.
  induction rs as [| r rs IH]; intros ws t out w Hws Herr Ht Hsum; cbv zeta.
  - simpl. rewrite app_nil_r. done.
  - simpl in Herr, Hsum. simpl readUntilErr. simpl downloadLoop.
    destruct (rr_data r) as [| b data] eqn:Hdata.
    + simpl length. cbn [Nat.ltb Nat.leb]. simpl app.
      destruct (rr_err r) as [[| msg] |]; [| done |].
      * rewrite app_nil_r. done.
      * by apply IH.
    + change (0 <? length (b :: data))%nat with true. cbv iota.
      destruct (doWrite_accepted (b :: data) ws Hws) as (ws' & -> & Hws').
      rewrite bind_run.
      set (n := Z.of_nat (length (b :: data))) in *.
      assert (Hn : 0 < n) by (subst n; simpl length; lia).
      set (rest := if rr_err r is None then readUntilErr rs else []) in *.
      assert (Hlen : Z.of_nat (length ((b :: data) ++ rest)) = n + Z.of_nat (length rest)).
      { rewrite length_app. subst n. lia. }
      rewrite Hlen in Hsum.
      assert (Ht' : int64_add t n = t + n).
      { unfold int64_add. apply wrap64_small. lia. }
      rewrite Ht'.
      destruct (reportProgress_fields (t + n) w) as (Htr & _).
      set (w2 := snd (reportProgress (t + n) w)) in *.
      split; [| split; [done |]].
      * destruct (rr_err r) as [[| msg] |];
          [subst rest; by rewrite app_nil_r | done |].
        subst rest. destruct (IH ws' (t + n) (out ++ b :: data) w2) as (Hres & _);
          [done | done | lia | lia |].
        rewrite Hres. by rewrite <- app_assoc.
      * intros _. rewrite Hlen.
        destruct (rr_err r) as [[| msg] |];
          [subst rest; rewrite mret_run; cbn [snd]; rewrite Htr; simpl length; lia
          | done |].
        subst rest.
        destruct (IH ws' (t + n) (out ++ b :: data) w2) as (_ & Hnil & Hcons);
          [done | done | lia | lia |].
        destruct (decide (readUntilErr rs = [])) as [Hempty | Hmore].
        -- rewrite (Hnil Hempty), Hempty, Htr. simpl length. lia.
        -- rewrite (Hcons Hmore). lia.
Qed.

Lemma downloadAdmitted_plain (r : Request) (env : DownloadEnv) (info : FileInfo)
    (ip : string) (w : World) :
  Range r = "" ->
  statResult env = Some info ->
  IsDir info = false ->
  openErr env = None ->
  let w3 := snd (addLog ("Started download from " +:+ ip)
              (snd (broadcastStatus (set_status (fun s =>
                 upd_Size (fi_Size info)
                   (upd_ClientIP ip (upd_Status "transferring" s))) w)))) in
  let res := downloadLoop (reads env) (netWrites env) 0 [] w3 in
  fst (downloadAdmitted r env ip w)
    = mkResponse 200 "application/octet-stream" "" (snd (fst res)) [] ∧
  snd (downloadAdmitted r env ip w)
    = if fst (fst res)
      then snd (addLog ("Download completed for " +:+ ip) (snd (reportCompleted (snd res))))
      else snd res.
Proof.
  intros Hrange Hstat Hfile Hopen. cbv zeta. unfold downloadAdmitted.
  rewrite Hstat, Hfile, Hopen, Hrange.
  destruct (decide ("" ≠ "")); [done |].
  cbv zeta. run.
  destruct (downloadLoop _ _ _ _ _) as [[ok out] w4]. cbn [fst snd].
  destruct ok; by run.
Qed.

(** X6: a file download without a Range header whose reads end in EOF and
    whose writes are all accepted sends the peer exactly the bytes read, in
    order, with status 200, and ends in phase "completed" with progress 100
    and the gate free; [Transferred] is the number of bytes sent (and is
    left as it was when the file is empty), [Size] is the size [os.Stat]
    reported. *)
Theorem download_success (r : Request) (env : DownloadEnv) (info : FileInfo) (w : World) :
  mode w = "send" ->
  activeClient w = "" ∨ activeClient w = getClientIP r ->
  Range r = "" ->
  statResult env = Some info ->
  IsDir info = false ->
  openErr env = None ->
  firstErr (reads env) = EOF ->
  allAccepted (netWrites env) ->
  Z.of_nat (length (readUntilErr (reads env))) < 2 ^ 63 ->
  let content := readUntilErr (reads env) in
  let resp := fst (handleDownload r env w) in
  let s := status (snd (handleDownload r env w)) in
  resp = mkResponse 200 "application/octet-stream" "" content [] ∧
  Status s = "completed" ∧
  Progress s = 100%Q ∧
  Transferred s = (if decide (content = []) then Transferred (status w)
                   else Z.of_nat (length content)) ∧
  Size s = fi_Size info ∧
  ClientIP s = getClientIP r ∧
  Error s = Error (status w) ∧
  activeClient (snd (handleDownload r env w)) = "".
Proof.
  intros Hmode Hgate Hrange Hstat Hfile Hopen Heof Hws Hlen. cbv zeta.
  rewrite (handleDownload_frees_gate r env w Hmode Hgate).
  rewrite handleDownload_response, handleDownload_world by done.
  set (w1 := snd (addLog _ (set_activeClient (getClientIP r) w))).
  assert (Hs1 : status w1 = status w) by (subst w1; by frame).
  clearbody w1.
  destruct (downloadAdmitted_plain r env info (getClientIP r) w1 Hrange Hstat Hfile Hopen)
    as [Hresp Hworld].
  cbv zeta in Hresp, Hworld.
  rewrite Hresp. rewrite Hworld in *. clear Hresp Hworld.
  set (w3 := snd (addLog _ (snd (broadcastStatus (set_status _ w1))))) in *.
  assert (Hs3 : status w3 = upd_Size (fi_Size info)
                  (upd_ClientIP (getClientIP r) (upd_Status "transferring" (status w))))
    by (subst w3; frame; by rewrite Hs1).
  clearbody w3.
  destruct (downloadLoop_clean (reads env) (netWrites env) 0 [] w3 Hws Heof)
    as (Hres & Hnil & Hcons); [lia | lia |].
  destruct (downloadLoop_fields (reads env) (netWrites env) 0 [] w3) as [Hsize Hip].
  pose proof (downloadLoop_phase (reads env) (netWrites env) 0 [] w3) as Hphase.
  cbv zeta in *. rewrite Hres in *. cbn [fst snd] in *.
  destruct Hphase as [_ Herr].
  set (w4 := snd (downloadLoop (reads env) (netWrites env) 0 [] w3)) in *.
  clearbody w4.
  split; [done |]. frame.
  cbn [Status Progress Transferred Size ClientIP Error upd_Progress upd_Status].
  rewrite Hsize, Hip, Herr, Hs3.
  cbn [Size ClientIP Error upd_Size upd_ClientIP upd_Status].
  repeat split.
  destruct (decide (readUntilErr (reads env) = [])) as [Hempty | Hmore].
  - by rewrite (Hnil Hempty), Hs3.
  - rewrite (Hcons Hmore). lia.
Qed.

Lemma download_success_witness :
  let r := GET "192.168.1.1:50001" "" in
  stream (fst (handleDownload r (fileEnv []) sendServer)) = bytes "abcde" ∧
  Transferred (status (snd (handleDownload r (fileEnv []) sendServer))) = 5 ∧
  Status (status (snd (handleDownload r (fileEnv []) sendServer))) = "completed".
Proof.
  intros r.
  destruct (download_success r (fileEnv []) (mkFileInfo false 5) sendServer)
    as (Hresp & Hphase & _ & Htr & _);
    [reflexivity | by left | reflexivity | reflexivity | reflexivity | reflexivity
    | reflexivity | constructor | reflexivity |].
  rewrite Hresp, Hphase, Htr. repeat split; vm_compute; reflexivity.
Defined.

Lemma downloadLoop_read_failure (rs : list ReadResult) :
  forall ws t out w msg,
    allAccepted ws ->
    firstErr rs = IOErr msg ->
    0 <= t ->
    t + Z.of_nat (length (readUntilErr rs)) < 2 ^ 63 ->
    let res := downloadLoop rs ws t out w in
    fst res = (false, out ++ readUntilErr rs) ∧
    Status (status (snd res)) = "error" ∧
    Error (status (snd res)) = msg.
Proof.
  induction rs as [| r rs IH]; intros ws t out w msg Hws Herr Ht Hsum; cbv zeta;
    [done |].
  simpl in Herr, Hsum. simpl readUntilErr. simpl downloadLoop.
  assert (Hafter : forall ws1 t1 out1 w1,
    allAccepted ws1 -> 0 <= t1 ->
    t1 + Z.of_nat (length (if rr_err r is None then readUntilErr rs else [])) < 2 ^ 63 ->
    let res := match rr_err r with
               | Some EOF => mret (true, out1)
               | Some (IOErr m) => reportError m;; mret (false, out1)
               | None => downloadLoop rs ws1 t1 out1
               end w1 in
    fst res = (false, out1 ++ (if rr_err r is None then readUntilErr rs else [])) ∧
    Status (status (snd res)) = "error" ∧
    Error (status (snd res)) = msg).
  { intros ws1 t1 out1 w1 Hws1 Ht1 Hsum1. cbv zeta.
    destruct (rr_err r) as [[| m] |]; [done | | by apply IH].
    injection Herr as ->. run. rewrite app_nil_r. by frame. }
  destruct (rr_data r) as [| b data] eqn:Hdata.
  - simpl length. cbn [Nat.ltb Nat.leb]. simpl app. by apply Hafter.
  - change (0 <? length (b :: data))%nat with true. cbv iota.
    destruct (doWrite_accepted (b :: data) ws Hws) as (ws' & -> & Hws').
    rewrite bind_run.
    set (rest := if rr_err r is None then readUntilErr rs else []) in *.
    assert (Hlen : Z.of_nat (length ((b :: data) ++ rest))
                   = Z.of_nat (length (b :: data)) + Z.of_nat (length rest)).
    { rewrite length_app. lia. }
    rewrite Hlen in Hsum.
    assert (Ht' : int64_add t (Z.of_nat (length (b :: data)))
                  = t + Z.of_nat (length (b :: data))).
    { unfold int64_add. apply wrap64_small. lia. }
    rewrite Ht'.
    destruct (Hafter ws' (t + Z.of_nat (length (b :: data))) (out ++ b :: data)
                (snd (reportProgress (t + Z.of_nat (length (b :: data))) w)))
      as (Hres & Hphase & Hmsg); [done | lia | lia |].
    cbv zeta in *. rewrite Hres. by rewrite <- app_assoc.
Qed.

Lemma downloadLoop_write_failure (pre : list ReadResult) :
  forall r post ws t out w k msg,
    Forall (fun c => rr_err c = None ∧ rr_data c ≠ []) pre ->
    rr_data r ≠ [] ->
    let res := downloadLoop (pre ++ r :: post)
                 (replicate (length pre) None ++ Some (k, msg) :: ws) t out w in
    fst res = (false, out ++ concat (rr_data <$> pre) ++ take k (rr_data r)) ∧
    Status (status (snd res)) = "error" ∧
    Error (status (snd res)) = msg.
Proof.
  induction pre as [| c pre IH]; intros r post ws t out w k msg Hpre Hr; cbv zeta.
  - simpl app. simpl replicate. simpl downloadLoop.
    destruct (rr_data r) as [| b data]; [done |].
    change (0 <? length (b :: data))%nat with true. cbv iota.
    cbn [doWrite]. run. by frame.
  - apply Forall_cons in Hpre as [[Hc Hdata] Hpre].
    change ((c :: pre) ++ r :: post) with (c :: (pre ++ r :: post)).
    simpl replicate. simpl downloadLoop.
    destruct (rr_data c) as [| b data] eqn:Hdc; [done |].
    change (0 <? length (b :: data))%nat with true. cbv iota.
    cbn [doWrite app]. rewrite bind_run, Hc.
    destruct (IH r post ws (int64_add t (Z.of_nat (length (b :: data))))
                (out ++ b :: data)
                (snd (reportProgress (int64_add t (Z.of_nat (length (b :: data)))) w))
                k msg Hpre Hr) as (Hres & Hphase & Hmsg).
    cbv zeta in *. rewrite Hres. split; [| done].
    f_equal. rewrite fmap_cons. simpl concat.
    by rewrite Hdc, <- !app_assoc.
Qed.

(** X7: when a plain file download breaks, the peer has received the
    bytes handled so far, the phase is "error" with the failure's message,
    and the gate is free.  A failing read ends the stream after the bytes
    read so far; a failing write of the chunk that follows [pre] ends it
    after the chunks of [pre] and the part of that chunk the write still
    accepted. *)
Theorem download_failure (r : Request) (env : DownloadEnv) (info : FileInfo) (w : World) :
  mode w = "send" ->
  activeClient w = "" ∨ activeClient w = getClientIP r ->
  Range r = "" ->
  statResult env = Some info ->
  IsDir info = false ->
  openErr env = None ->
  let resp := fst (handleDownload r env w) in
  let w' := snd (handleDownload r env w) in
  (forall msg,
     firstErr (reads env) = IOErr msg ->
     allAccepted (netWrites env) ->
     Z.of_nat (length (readUntilErr (reads env))) < 2 ^ 63 ->
     resp = mkResponse 200 "application/octet-stream" "" (readUntilErr (reads env)) [] ∧
     Status (status w') = "error" ∧ Error (status w') = msg ∧ activeClient w' = "") ∧
  (forall pre c post k msg ws,
     reads env = pre ++ c :: post ->
     Forall (fun c => rr_err c = None ∧ rr_data c ≠ []) pre ->
     rr_data c ≠ [] ->
     netWrites env = replicate (length pre) None ++ Some (k, msg) :: ws ->
     resp = mkResponse 200 "application/octet-stream" ""
              (concat (rr_data <$> pre) ++ take k (rr_data c)) [] ∧
     Status (status w') = "error" ∧ Error (status w') = msg ∧ activeClient w' = "").
Proof.
  intros Hmode Hgate Hrange Hstat Hfile Hopen. cbv zeta.
  rewrite (handleDownload_frees_gate r env w Hmode Hgate).
  rewrite handleDownload_response, handleDownload_world by done.
  set (w1 := snd (addLog _ (set_activeClient (getClientIP r) w))). clearbody w1.
  destruct (downloadAdmitted_plain r env info (getClientIP r) w1 Hrange Hstat Hfile Hopen)
    as [Hresp Hworld].
  cbv zeta in Hresp, Hworld. rewrite Hresp, Hworld. clear Hresp Hworld.
  set (w3 := snd (addLog _ (snd (broadcastStatus (set_status _ w1))))). clearbody w3.
  split.
  - intros msg Herr Hws Hlen.
    destruct (downloadLoop_read_failure (reads env) (netWrites env) 0 [] w3 msg Hws Herr)
      as (Hres & Hphase & Hmsg); [lia | lia |].
    cbv zeta in *. rewrite Hres. cbn [fst snd]. by frame.
  - intros pre c post k msg ws Hreads Hpre Hc Hwrites.
    rewrite Hreads, Hwrites.
    destruct (downloadLoop_write_failure pre c post ws 0 [] w3 k msg Hpre Hc)
      as (Hres & Hphase & Hmsg).
    cbv zeta in *. rewrite Hres. cbn [fst snd]. by frame.
Qed.

Lemma download_failure_witness :
  let r := GET "192.168.1.1:50001" "" in
  let env := fileEnv [None; Some (1%nat, "write: broken pipe")] in
  stream (fst (handleDownload r env sendServer)) = bytes "abcd" ∧
  Status (status (snd (handleDownload r env sendServer))) = "error" ∧
  Error (status (snd (handleDownload r env sendServer))) = "write: broken pipe".
Proof.
  intros r env.
  destruct (download_failure r env (mkFileInfo false 5) sendServer) as (_ & Hwrite);
    [reflexivity | by left | reflexivity | reflexivity | reflexivity | reflexivity |].
  destruct (Hwrite [mkRead (bytes "abc") None] (mkRead (bytes "de") None)
              [mkRead [] (Some EOF)] 1%nat "write: broken pipe" [])
    as (Hresp & Hphase & Hmsg & _).
  - reflexivity.
  - constructor; [by split | constructor].
  - discriminate.
  - reflexivity.
  - rewrite Hresp, Hphase, Hmsg. repeat split; vm_compute; reflexivity.
Defined.

(** X8: what an admitted download does when its target is not there.  If
    [os.Stat] fails the peer gets 404 and the status record is not written;
    if the file cannot be opened (no Range header) the peer gets 500, and
    the phase, already set to "transferring", stays there with no error
    message recorded.  Either way the gate is freed. *)
Theorem download_unavailable (r : Request) (env : DownloadEnv) (w : World) :
  mode w = "send" ->
  activeClient w = "" ∨ activeClient w = getClientIP r ->
  let resp := fst (handleDownload r env w) in
  let w' := snd (handleDownload r env w) in
  (statResult env = None ->
     resp = httpError "File not found" 404 ∧
     status w' = status w ∧ statusHistory w' = statusHistory w ∧
     activeClient w' = "") ∧
  (forall info msg,
     statResult env = Some info -> IsDir info = false -> Range r = "" ->
     openErr env = Some msg ->
     resp = httpError "Failed to open file" 500 ∧
     status w' = upd_Size (fi_Size info)
                   (upd_ClientIP (getClientIP r) (upd_Status "transferring" (status w))) ∧
     activeClient w' = "").
Proof.
  intros Hmode Hgate. cbv zeta.
  rewrite (handleDownload_frees_gate r env w Hmode Hgate).
  rewrite handleDownload_response, handleDownload_world by done.
  split.
  - intros Hstat. unfold downloadAdmitted. rewrite Hstat. run. by frame.
  - intros info msg Hstat Hfile Hrange Hopen. unfold downloadAdmitted.
    rewrite Hstat, Hfile, Hrange, Hopen.
    destruct (decide ("" ≠ "")); [done |]. cbv zeta. run. by frame.
Qed.

Lemma download_unavailable_witness :
  let r := GET "192.168.1.1:50001" "" in
  let env := mkDownloadEnv None 0 [] None [] [] (0, []) in
  code (fst (handleDownload r env sendServer)) = 404 ∧
  status (snd (handleDownload r env sendServer)) = status sendServer.
Proof.
  intros r env.
  destruct (download_unavailable r env sendServer) as (Hstat & _);
    [reflexivity | by left |].
  destruct Hstat as (Hresp & Hstatus & _); [reflexivity |].
  rewrite Hresp, Hstatus. split; reflexivity.
Defined.

(** ** An upload, end to end *)











(** ** Cancel and the auto-exit test *)

(** X11: a POST cancel writes nothing of the status record but the phase:
    size, transferred bytes, progress, peer address and error message stay
    as they were; its newest log entry names the caller, and it writes no
    file. *)
Theorem cancel_keeps_progress (r : Request) (w : World) :
  Method r = "POST" ->
  let w' := snd (handleCancel r w) in
  status w' = upd_Status "cancelled" (status w) ∧
  statusHistory w' = statusHistory w ++ [upd_Status "cancelled" (status w)] ∧
  (exists k, last (transferLog w')
             = Some (logEntryOf (wallClock w k)
                       ("Transfer cancelled by " +:+ getClientIP r))) ∧
  disk w' = disk w.
Proof.
  intros Hpost. cbv zeta. unfold handleCancel. rewrite Hpost.
  destruct (decide ("POST" ≠ "POST")); [done |]. run. frame.
  repeat split.
  unfold releaseClient. run.
  destruct (decide (activeClient w = getClientIP r)); run.
  - exists (S (ticks w)). rewrite addLog_transferLog. frame.
    apply appendLog_last.
  - exists (ticks w). rewrite addLog_transferLog. frame. apply appendLog_last.
Qed.

Lemma cancel_keeps_progress_witness :
  let r := POST "192.168.1.2:40000" [] in
  Transferred (status (snd (handleCancel r sendServerHeld)))
    = Transferred (status sendServerHeld) ∧
  disk (snd (handleCancel r sendServerHeld)) = disk sendServerHeld.
Proof.
  intros r.
  destruct (cancel_keeps_progress r sendServerHeld) as (Hstatus & _ & _ & Hdisk);
    [reflexivity |].
  rewrite Hstatus, Hdisk. split; reflexivity.
Defined.

(** X12: the test of [waitForComplete] succeeds after every POST cancel,
    after every admitted download of a plain file that could be opened,
    and after every admitted directory download whose walk does not
    panic: such a request ends in one of the phases at which an auto-exit
    server shuts down.  A directory download whose walk panics leaves the
    phase at "transferring", and the server keeps waiting. *)
Theorem request_reaches_terminal_phase (r : Request) (env : DownloadEnv)
    (info : FileInfo) (w : World) :
  (Method r = "POST" ->
     terminalPhase (Status (status (snd (handleCancel r w)))) = true) ∧
  (mode w = "send" ->
   activeClient w = "" ∨ activeClient w = getClientIP r ->
   statResult env = Some info ->
   (IsDir info = true ∧ walkPanics (walk env) None = false)
   ∨ (IsDir info = false ∧ openErr env = None) ->
   terminalPhase (Status (status (snd (handleDownload r env w)))) = true) ∧
  (mode w = "send" ->
   activeClient w = "" ∨ activeClient w = getClientIP r ->
   statResult env = Some info ->
   IsDir info = true -> walkPanics (walk env) None = true ->
   terminalPhase (Status (status (snd (handleDownload r env w)))) = false).
Proof.
  assert (Hwalk : mode w = "send" ->
    activeClient w = "" ∨ activeClient w = getClientIP r ->
    statResult env = Some info -> IsDir info = true ->
    Status (status (snd (handleDownload r env w)))
    = if walkPanics (walk env) None then "transferring" else "completed").
  { intros Hmode Hgate Hstat Hdir.
    rewrite handleDownload_world by done. frame.
    destruct (downloadAdmitted_dir r env info (getClientIP r)
                (snd (addLog ("Client " +:+ getClientIP r +:+ " connected")
                        (set_activeClient (getClientIP r) w))) Hstat Hdir)
      as (_ & _ & Hphase).
    by destruct (walkPanics (walk env) None); destruct Hphase. }
  split; [| split].
  - intros Hpost. unfold handleCancel. rewrite Hpost.
    destruct (decide ("POST" ≠ "POST")); [done |]. run. by frame.
  - intros Hmode Hgate Hstat [[Hdir Hquiet] | [Hdir Hopen]].
    + by rewrite Hwalk, Hquiet.
    + rewrite handleDownload_world by done. frame.
      destruct (decide (Range r = "")) as [Hrange | Hrange].
      * destruct (downloadAdmitted_plain r env info (getClientIP r)
                    (snd (addLog ("Client " +:+ getClientIP r +:+ " connected")
                            (set_activeClient (getClientIP r) w)))
                    Hrange Hstat Hdir Hopen) as [_ Hworld].
        cbv zeta in Hworld. rewrite Hworld. clear Hworld.
        match goal with
        | |- context [downloadLoop ?rs ?ws ?t ?out ?w0] =>
            pose proof (downloadLoop_phase rs ws t out w0) as Hphase;
            destruct (downloadLoop rs ws t out w0) as [[ok out'] w4]
        end.
        cbv zeta in Hphase. cbn [fst snd] in *.
        destruct ok; [by frame | by rewrite Hphase].
      * destruct (downloadAdmitted_range r env info (getClientIP r)
                    (snd (addLog ("Client " +:+ getClientIP r +:+ " connected")
                            (set_activeClient (getClientIP r) w)))
                    Hrange Hstat Hdir Hopen) as [_ Hworld].
        rewrite Hworld. by frame.
  - intros Hmode Hgate Hstat Hdir Hpanic. by rewrite Hwalk, Hpanic.
Qed.

Lemma request_reaches_terminal_phase_witness :
  terminalPhase (Status (status (snd (handleCancel (POST "192.168.1.2:40000" [])
                                        sendServer)))) = true ∧
  terminalPhase (Status (status (snd (handleDownload (GET "192.168.1.1:50001" "")
                                        dirEnv sendDirServer)))) = true ∧
  terminalPhase (Status (status (snd (handleDownload (GET "192.168.1.1:50001" "")
                                        dirEnvLast sendDirServer)))) = true ∧
  terminalPhase (Status (status (snd (handleDownload (GET "192.168.1.1:50001" "")
                                        dirEnvBroken sendDirServer)))) = false.
Proof.
  destruct (request_reaches_terminal_phase (POST "192.168.1.2:40000" []) dirEnv
              (mkFileInfo true 4096) sendServer) as (Hcancel & _).
  destruct (request_reaches_terminal_phase (GET "192.168.1.1:50001" "") dirEnv
              (mkFileInfo true 4096) sendDirServer) as (_ & Hdownload & _).
  destruct (request_reaches_terminal_phase (GET "192.168.1.1:50001" "") dirEnvLast
              (mkFileInfo true 4096) sendDirServer) as (_ & Hlast & _).
  destruct (request_reaches_terminal_phase (GET "192.168.1.1:50001" "") dirEnvBroken
              (mkFileInfo true 4096) sendDirServer) as (_ & _ & Hbroken).
  split; [apply Hcancel; reflexivity |].
  split; [apply Hdownload; [reflexivity | left; reflexivity | reflexivity
                           | left; split; reflexivity] |].
  split; [apply Hlast; [reflexivity | left; reflexivity | reflexivity
                       | left; split; reflexivity] |].
  apply Hbroken; [reflexivity | left; reflexivity | reflexivity | reflexivity
                 | reflexivity].
Defined.

(** ** The broadcaster *)

Lemma broadcastStatus_sseClients (w : World) :
  sseClients (snd (broadcastStatus w)) = trySend (snapshotOf w) <$> sseClients w.
Proof. reflexivity. Qed.

Lemma broadcastStatus_snapshot (w : World) :
  snapshotOf (snd (broadcastStatus w)) = snapshotOf w.
Proof. reflexivity. Qed.

Lemma iter_broadcast_snapshot (n : nat) (w : World) :
  snapshotOf (Nat.iter n (fun w => snd (broadcastStatus w)) w) = snapshotOf w.
Proof.
  induction n as [| n IH]; [done |].
  rewrite Nat.iter_succ. by rewrite broadcastStatus_snapshot.
Qed.

(** X13: broadcasting never blocks and never grows a channel past its
    capacity: after [n] broadcasts of an unchanged status a subscriber
    whose channel held [buf] holds [buf] followed by as many copies of the
    snapshot as still fitted; the later ones are dropped, the earlier ones
    are kept. *)
Theorem broadcast_fills_then_drops (n : nat) (ch : nat) (buf : list Snapshot) (w : World) :
  sseClients w !! ch = Some buf ->
  (length buf <= chanCap)%nat ->
  sseClients (Nat.iter n (fun w => snd (broadcastStatus w)) w) !! ch
  = Some (buf ++ replicate (n `min` (chanCap - length buf)) (snapshotOf w)).
Proof.
  intros Hch Hlen. induction n as [| n IH].
  - simpl. by rewrite app_nil_r.
  - rewrite Nat.iter_succ.
    rewrite broadcastStatus_sseClients, lookup_fmap, IH, iter_broadcast_snapshot.
    cbn [fmap option_fmap option_map]. f_equal. unfold trySend.
    rewrite length_app, length_replicate.
    destruct (Nat.ltb_spec (length buf + n `min` (chanCap - length buf)) chanCap)
      as [Hroom | Hfull].
    + replace (S n `min` (chanCap - length buf))%nat
        with (S (n `min` (chanCap - length buf))) by lia.
      rewrite <- app_assoc. f_equal. by rewrite replicate_S_end.
    + f_equal. f_equal. lia.
Qed.

Lemma broadcast_fills_then_drops_witness :
  let w := snd (sseRegister 7 sendServer) in
  sseClients (Nat.iter 12 (fun w => snd (broadcastStatus w)) w) !! 7%nat
  = Some (replicate 10 (snapshotOf w)).
Proof.
  intros w.
  apply (broadcast_fills_then_drops 12 7 [] w).
  - reflexivity.
  - unfold chanCap. simpl. lia.
Defined.

(** X14: the life of a subscriber.  Registering a fresh channel and then
    removing it restores the subscriber set; a registered channel receives
    the next broadcast as its first message and the channels of the others
    are served as before; a removed channel receives nothing. *)
Theorem subscriber_lifecycle (ch : nat) (w : World) :
  sseClients w !! ch = None ->
  sseClients (snd (sseUnregister ch (snd (sseRegister ch w)))) = sseClients w ∧
  sseClients (snd (broadcastStatus (snd (sseRegister ch w)))) !! ch
    = Some [snapshotOf w] ∧
  (forall other, other ≠ ch ->
     sseClients (snd (broadcastStatus (snd (sseRegister ch w)))) !! other
     = sseClients (snd (broadcastStatus w)) !! other) ∧
  sseClients (snd (broadcastStatus (snd (sseUnregister ch w)))) !! ch = None.
Proof.
  intros Hfresh. unfold sseRegister, sseUnregister. run.
  rewrite !broadcastStatus_sseClients. cbn [sseClients set_sseClients].
  split; [by rewrite delete_insert_id |].
  split; [| split].
  - by rewrite lookup_fmap, lookup_insert_eq.
  - intros other Hother. by rewrite !lookup_fmap, lookup_insert_ne.
  - by rewrite lookup_fmap, lookup_delete_eq.
Qed.

Lemma subscriber_lifecycle_witness :
  sseClients (snd (broadcastStatus (snd (sseRegister 7 sendServer)))) !! 7%nat
  = Some [snapshotOf sendServer].
Proof.
  apply (subscriber_lifecycle 7 sendServer). reflexivity.
Defined.

(** ** Directory size *)

Lemma fileSizes_nonneg (entries : list SizeEntry) :
  Forall (fun e => 0 <= se_size e) entries -> 0 <= fileSizes entries.
Proof. induction 1 as [| e rest He _ IH]; simpl; [lia |]. destruct (se_isDir e); lia. Qed.

Lemma sumSizes_clean (entries : list SizeEntry) :
  forall size tail,
    Forall (fun e => se_err e = None ∧ 0 <= se_size e) entries ->
    0 <= size ->
    size + fileSizes entries < 2 ^ 63 ->
    sumSizes (entries ++ tail) size = sumSizes tail (size + fileSizes entries).
Proof.
  induction entries as [| e rest IH]; intros size tail Hok Hsize Hsum.
  - simpl. f_equal. lia.
  - apply Forall_cons in Hok as [[Herr He] Hok].
    assert (Hrest : 0 <= fileSizes rest).
    { apply fileSizes_nonneg. eapply Forall_impl; [exact Hok |]. by intros ? [_ ?]. }
    simpl in Hsum |- *. rewrite Herr.
    destruct (se_isDir e).
    + rewrite IH by (done || lia). f_equal; lia.
    + unfold int64_add. rewrite wrap64_small by lia.
      rewrite IH by (done || lia). f_equal; lia.
Qed.

(** X15: [calculateDirSize] over a walk without errors returns the sum of
    the sizes of the entries that are not directories, and no error, as
    long as that sum fits an int64; directories count for nothing and an
    empty walk gives 0. *)
Theorem calculateDirSize_total (entries : list SizeEntry) :
  Forall (fun e => se_err e = None ∧ 0 <= se_size e) entries ->
  fileSizes entries < 2 ^ 63 ->
  calculateDirSize entries = (fileSizes entries, None).
Proof.
  intros Hok Hsum. unfold calculateDirSize.
  rewrite <- (app_nil_r entries) at 1.
  rewrite sumSizes_clean by (done || lia). done.
Qed.

Lemma calculateDirSize_total_witness :
  calculateDirSize [mkSizeEntry true 4096 None; mkSizeEntry false 11 None;
                    mkSizeEntry true 4096 None; mkSizeEntry false 1000 None]
  = (1011, None).
Proof.
  apply (calculateDirSize_total
           [mkSizeEntry true 4096 None; mkSizeEntry false 11 None;
            mkSizeEntry true 4096 None; mkSizeEntry false 1000 None]).
  - repeat constructor; simpl; lia.
  - reflexivity.
Defined.

(** X16: when the walk reports an error at some entry, [calculateDirSize]
    returns that error together with the sum of the files visited before
    it; nothing after the failing entry is counted. *)
Theorem calculateDirSize_stops_at_error (pre post : list SizeEntry) (e : SizeEntry)
    (msg : string) :
  Forall (fun e => se_err e = None ∧ 0 <= se_size e) pre ->
  fileSizes pre < 2 ^ 63 ->
  se_err e = Some msg ->
  calculateDirSize (pre ++ e :: post) = (fileSizes pre, Some msg).
Proof.
  intros Hok Hsum Herr. unfold calculateDirSize.
  rewrite sumSizes_clean by (done || lia). simpl. by rewrite Herr.
Qed.

Lemma calculateDirSize_stops_at_error_witness :
  calculateDirSize [mkSizeEntry false 11 None;
                    mkSizeEntry false 0 (Some "lstat secret: permission denied");
                    mkSizeEntry false 1000 None]
  = (11, Some "lstat secret: permission denied").
Proof.
  apply (calculateDirSize_stops_at_error [mkSizeEntry false 11 None]
           [mkSizeEntry false 1000 None]
           (mkSizeEntry false 0 (Some "lstat secret: permission denied"))).
  - repeat constructor; simpl; lia.
  - reflexivity.
  - reflexivity.
Defined.

(** ** Sizes for the log *)

Lemma string_app_assoc (s1 s2 s3 : string) :
  (s1 +:+ s2) +:+ s3 = s1 +:+ s2 +:+ s3.
Proof.
  induction s1 as [| a s1 IH]; [done |].
  change (String a ((s1 +:+ s2) +:+ s3) = String a (s1 +:+ s2 +:+ s3)).
  by rewrite IH.
Qed.

(** An int64 size that is a whole number of KB has at most 53 significant
    bits, so its conversion to [float64] is exact. *)
Lemma float64_exact (n : Z) :
  0 <= n < 2 ^ 63 -> n mod 1024 = 0 -> float64 n = n.
Proof.
  intros Hn Hmod. unfold float64.
  destruct (Z.leb_spec (Z.log2 (Z.abs n) + 1 - 53) 0) as [| Hshift]; [done |].
  rewrite Z.abs_eq in * by lia.
  assert (Hpos : 0 < n).
  { destruct (decide (n = 0)) as [-> |]; [| lia]. simpl in Hshift. lia. }
  assert (Hlog : Z.log2 n < 63) by (apply Z.log2_lt_pow2; lia).
  set (shift := Z.log2 n + 1 - 53) in *.
  assert (Hdiv : n = n / 1024 * 2 ^ (10 - shift) * 2 ^ shift).
  { rewrite <- Z.mul_assoc, <- Z.pow_add_r by lia.
    replace (10 - shift + shift) with 10 by lia.
    change (2 ^ 10) with 1024.
    pose proof (Z.div_mod n 1024). lia. }
  assert (Hp : 0 < 2 ^ shift) by (apply Z.pow_pos_nonneg; lia).
  assert (Hhalf : 0 < 2 ^ (shift - 1)) by (apply Z.pow_pos_nonneg; lia).
  assert (Hr : n mod 2 ^ shift = 0) by (rewrite Hdiv; apply Z.mod_mul; lia).
  rewrite Hr.
  replace (2 ^ (shift - 1) <? 0) with false by (symmetry; apply Z.ltb_ge; lia).
  replace (2 ^ (shift - 1) =? 0) with false by (symmetry; apply Z.eqb_neq; lia).
  cbn [orb andb].
  rewrite Z.sgn_pos by lia.
  pose proof (Z.div_mod n (2 ^ shift)). lia.
Qed.

Lemma fixed2_whole (k unit : Z) :
  0 < unit -> 0 <= k -> float64 (k * unit) = k * unit ->
  fixed2 (k * unit) unit = pretty k +:+ ".00".
Proof.
  intros Hunit Hk Hexact. unfold fixed2. rewrite Hexact.
  replace (k * unit * 100) with (k * 100 * unit) by lia.
  rewrite Z.div_mul, Z.mod_mul by lia.
  replace (unit <? 2 * 0) with false by (symmetry; apply Z.ltb_ge; lia).
  replace (unit =? 2 * 0) with false by (symmetry; apply Z.eqb_neq; lia).
  cbn [orb andb].
  rewrite Z.div_mul, Z.mod_mul by lia. done.
Qed.

(** X17: [formatSize] prints sizes below 1024 as the plain byte count, and
    a whole number [k] of KB, MB or GB as [k.00] with the largest unit that
    fits (for GB, any [k] an int64 size can hold). *)
Theorem formatSize_whole_units (k : Z) :
  (k < 1024 -> formatSize k = pretty k +:+ " B") ∧
  (1 <= k < 1024 ->
     formatSize (k * KB) = pretty k +:+ ".00 KB" ∧
     formatSize (k * MB) = pretty k +:+ ".00 MB") ∧
  (1 <= k < 2 ^ 33 -> formatSize (k * GB) = pretty k +:+ ".00 GB").
Proof.
  unfold formatSize.
  assert (HKB : KB = 1024) by done.
  assert (HMB : MB = 1048576) by done.
  assert (HGB : GB = 1073741824) by done.
  split; [| split].
  - intros Hk.
    destruct (Z.leb_spec GB k); [lia |].
    destruct (Z.leb_spec MB k); [lia |].
    destruct (Z.leb_spec KB k); [lia | done].
  - intros Hk. split.
    + destruct (Z.leb_spec GB (k * KB)); [lia |].
      destruct (Z.leb_spec MB (k * KB)); [lia |].
      destruct (Z.leb_spec KB (k * KB)); [| lia].
      rewrite fixed2_whole; [by rewrite string_app_assoc | lia | lia |].
      apply float64_exact; [lia |]. rewrite HKB. apply Z.mod_mul. lia.
    + destruct (Z.leb_spec GB (k * MB)); [lia |].
      destruct (Z.leb_spec MB (k * MB)); [| lia].
      rewrite fixed2_whole; [by rewrite string_app_assoc | lia | lia |].
      apply float64_exact; [lia |]. rewrite HMB.
      replace (k * 1048576) with (k * 1024 * 1024) by lia. apply Z.mod_mul. lia.
  - intros Hk.
    destruct (Z.leb_spec GB (k * GB)); [| lia].
    rewrite fixed2_whole; [by rewrite string_app_assoc | lia | lia |].
    apply float64_exact; [lia |]. rewrite HGB.
    replace (k * 1073741824) with (k * 1048576 * 1024) by lia. apply Z.mod_mul. lia.
Qed.

Lemma formatSize_whole_units_witness :
  formatSize 512 = "512 B" ∧ formatSize (5 * GB) = "5.00 GB".
Proof.
  destruct (formatSize_whole_units 512) as (Hbytes & _).
  destruct (formatSize_whole_units 5) as (_ & _ & Hgb).
  split; [apply Hbytes; lia | apply Hgb; lia].
Defined.

(** Sizes that are not whole units: the quotient is rounded to hundredths,
    and a size past 2^53 is first rounded by its conversion to [float64]
    (the last size below would print as 8103317071.75 GB without it). *)
Example formatSize_rounds :
  formatSize 1029 = "1.00 KB" ∧ formatSize 1034 = "1.01 KB" ∧
  formatSize 1536 = "1.50 KB" ∧
  float64 (2 ^ 53 + 1) = 2 ^ 53 ∧ float64 (2 ^ 53 + 3) = 2 ^ 53 + 4 ∧
  float64 (2 ^ 63 - 1) = 2 ^ 63 ∧
  formatSize 8700870453076552412 = "8103317071.76 GB".
Proof. vm_compute. repeat split. Qed.

(** ** The shape of a peer identifier *)

Lemma TrimLeft_head (s cutset : string) (c : ascii) (rest : string) :
  TrimLeft s cutset = String c rest -> inCutset cutset c = false.
Proof.
  induction s as [| a s IH]; [done |]. cbn [TrimLeft].
  destruct (inCutset cutset a) eqn:Ha; [done |].
  intros [= <- _]. done.
Qed.

Lemma TrimRight_cons (a : ascii) (s cutset : string) :
  TrimRight (String a s) cutset =
  match TrimRight s cutset with
  | EmptyString => if inCutset cutset a then EmptyString else String a EmptyString
  | kept => String a kept
  end.
Proof. reflexivity. Qed.

Lemma TrimRight_head (s cutset : string) (c : ascii) (rest : string) :
  TrimRight s cutset = String c rest -> exists rest', s = String c rest'.
Proof.
  destruct s as [| a s]; [done |]. rewrite TrimRight_cons.
  destruct (TrimRight s cutset).
  - destruct (inCutset cutset a); [done |]. intros [= <- _]. by eexists.
  - intros [= <- _]. by eexists.
Qed.

Lemma TrimRight_last (s cutset : string) :
  forall front (c : ascii),
    TrimRight s cutset = front +:+ String c EmptyString -> inCutset cutset c = false.
Proof.
  induction s as [| a s IH]; intros front c.
  - by destruct front.
  - rewrite TrimRight_cons.
    destruct (TrimRight s cutset) as [| k kept] eqn:Hkept.
    + destruct (inCutset cutset a) eqn:Ha; [by destruct front |].
      destruct front as [| f front]; [by intros [= <-] |].
      intros [= _ Hrest]. by destruct front.
    + destruct front as [| f front]; [done |].
      intros [= _ Hrest]. by apply (IH front c).
Qed.

(** X18: a peer identifier never begins and never ends with a square
    bracket, whatever the remote address looks like. *)
Theorem getClientIP_no_outer_brackets (r : Request) :
  (forall c rest, getClientIP r = String c rest -> c ≠ "["%char ∧ c ≠ "]"%char) ∧
  (forall front c, getClientIP r = front +:+ String c EmptyString ->
                   c ≠ "["%char ∧ c ≠ "]"%char).
Proof.
  assert (Hcut : forall c : ascii, inCutset "[]" c = false -> c ≠ "["%char ∧ c ≠ "]"%char).
  { intros c Hc. split; intros ->; discriminate. }
  unfold getClientIP, Trim. split.
  - intros c rest Hid. apply Hcut.
    destruct (TrimRight_head _ _ _ _ Hid) as [rest' Hleft].
    by apply (TrimLeft_head _ _ _ _ Hleft).
  - intros front c Hid. apply Hcut. by apply (TrimRight_last _ _ _ _ Hid).
Qed.

(** ** The general statements about unreported failures, at an input *)


(** X21: a directory download that could stat its target never reports a
    failure.  Whatever happens to the copies into the archive, the archive
    is closed, the error message is left as it was and the peer is
    released; the handler either runs to its end, with a 200 and the phase
    "completed", or panics at a copy that follows a failed archive write,
    the connection dropped and the phase left at "transferring".  When no
    write into the archive fails it runs to its end. *)
Theorem dir_download_never_reports_error (r : Request) (env : DownloadEnv)
    (info : FileInfo) (w : World) :
  mode w = "send" ->
  activeClient w = "" ∨ activeClient w = getClientIP r ->
  statResult env = Some info ->
  IsDir info = true ->
  let res := handleDownload r env w in
  last (archive (fst res)) = Some ZipClose ∧
  Error (status (snd res)) = Error (status w) ∧
  activeClient (snd res) = "" ∧
  (if walkPanics (walk env) None
   then code (fst res) = 0 ∧ Status (status (snd res)) = "transferring"
   else code (fst res) = 200 ∧ Status (status (snd res)) = "completed") ∧
  (writesIntact (walk env) ->
     code (fst res) = 200 ∧ Status (status (snd res)) = "completed").
Proof.
  intros Hmode Hgate Hstat Hdir. cbv zeta.
  assert (Hmain :
    last (archive (fst (handleDownload r env w))) = Some ZipClose ∧
    Error (status (snd (handleDownload r env w))) = Error (status w) ∧
    (if walkPanics (walk env) None
     then code (fst (handleDownload r env w)) = 0 ∧
          Status (status (snd (handleDownload r env w))) = "transferring"
     else code (fst (handleDownload r env w)) = 200 ∧
          Status (status (snd (handleDownload r env w))) = "completed")).
  { rewrite handleDownload_response, handleDownload_world by done. frame.
    destruct (downloadAdmitted_dir r env info (getClientIP r)
                (snd (addLog ("Client " +:+ getClientIP r +:+ " connected")
                        (set_activeClient (getClientIP r) w))) Hstat Hdir)
      as (Hclose & Herr & Hphase).
    split; [done |]. split; [| done]. rewrite Herr. by frame. }
  destruct Hmain as (Hclose & Herr & Hphase).
  split; [done |]. split; [done |].
  split; [by apply handleDownload_frees_gate |].
  split; [done |].
  intros Hintact. by rewrite (walkPanics_intact _ Hintact) in Hphase.
Qed.

(** The peer goes away during the first of two files: the handler panics
    at the second one and the phase stays "transferring". *)
Lemma dir_download_never_reports_error_witness :
  let r := GET "192.168.1.1:50001" "" in
  last (archive (fst (handleDownload r dirEnvBroken sendDirServer))) = Some ZipClose ∧
  Error (status (snd (handleDownload r dirEnvBroken sendDirServer)))
    = Error (status sendDirServer) ∧
  activeClient (snd (handleDownload r dirEnvBroken sendDirServer)) = "" ∧
  code (fst (handleDownload r dirEnvBroken sendDirServer)) = 0 ∧
  Status (status (snd (handleDownload r dirEnvBroken sendDirServer))) = "transferring".
Proof.
  intros r.
  destruct (dir_download_never_reports_error r dirEnvBroken (mkFileInfo true 4096)
              sendDirServer) as (Hclose & Herr & Hfree & Hphase & _);
    [reflexivity | left; reflexivity | reflexivity | reflexivity |].
  split; [exact Hclose |]. split; [exact Herr |]. split; [exact Hfree |].
  exact Hphase.
Defined.

(** ** Where an error message comes from *)

Lemma runOp_error (op : Op) (w : World) :
  Error (status (snd (runOp op w))) = Error (status w)
  ∨ Status (status (snd (runOp op w))) = "error".
Proof.
  destruct op as [r env | r env | r]; cbn [runOp].
  - apply handleDownload_error.
  - apply handleUpload_error.
  - left. apply handleCancel_error.
Qed.

Lemma runOps_snoc (ops : list Op) (op : Op) (w : World) :
  runOps (ops ++ [op]) w = snd (runOp op (runOps ops w)).
Proof. unfold runOps. by rewrite foldl_app. Qed.

(** X19: over a whole session, an error message that differs from the one
    the session started with was put there by a request that ended in
    phase "error": some prefix of the session ends, with its last request,
    in that phase. *)
Theorem error_message_has_cause (ops : list Op) (w : World) :
  Error (status (runOps ops w)) ≠ Error (status w) ->
  exists pre op post,
    ops = pre ++ op :: post ∧
    Status (status (runOps (pre ++ [op]) w)) = "error".
Proof.
  induction ops as [| op ops IH] using rev_ind; [done |].
  rewrite runOps_snoc. intros Hchanged.
  destruct (runOp_error op (runOps ops w)) as [Hsame | Herr].
  - rewrite Hsame in Hchanged. destruct (IH Hchanged) as (pre & op' & post & -> & Hphase).
    exists pre, op', (post ++ [op]). split; [by rewrite <- app_assoc | done].
  - exists ops, op, []. split; [done |]. by rewrite runOps_snoc.
Qed.

Lemma error_message_has_cause_witness :
  let failing := OpDownload (GET "192.168.1.1:50001" "")
                   (fileEnv [None; Some (1%nat, "write: broken pipe")]) in
  let cancel := OpCancel (POST "192.168.1.1:50002" []) in
  exists pre op post,
    [failing; cancel] = pre ++ op :: post ∧
    Status (status (runOps (pre ++ [op]) sendServer)) = "error".
Proof.
  intros failing cancel.
  apply (error_message_has_cause [failing; cancel] sendServer).
  by vm_compute.
Defined.

Lemma getClientIP_no_outer_brackets_witness :
  getClientIP (GET "[[::1]]:8080" "") = "::1".
Proof.
  destruct (getClientIP_no_outer_brackets (GET "[[::1]]:8080" "")) as [Hhead _].
  destruct (getClientIP (GET "[[::1]]:8080" "")) as [| c rest] eqn:Hid; [done |].
  destruct (Hhead c rest eq_refl) as [Hopen _].
  vm_compute in Hid. by injection Hid as <- <-.
Defined.
